(** * vscodetestcover: the coverage runner of [out/src/index.js]

    A shallow embedding of the module [index.js]: the module-level state
    ([mocha], [testOptions]), the helper [mkDirIfExists], the class
    [CoverageRunner] (constructor, [setupCoverage], [reportCoverage]) and
    the entry points [configure], [readCoverOptions] and [run].

    The program is effectful JavaScript.  Its state (file system, the
    [global] object, the exit listeners of [process], the require hooks,
    the module variables) is one record [World]; every function of the
    source is a computation in a state-and-exception monad over it.  The
    npm packages the module calls (path, glob, istanbul, mocha) are not
    part of the repository: what they compute is taken as a parameter
    ([Externals]); what they do to the process (the require hook, the
    test engine, the exit of the process) is modelled from their
    documented contract, under the heading "The host". *)

From Stdlib Require Import Ascii.
From stdpp Require Import gmap strings list pretty.

Local Open Scope Z_scope.

Set Warnings "-register-all".

(** ** JavaScript values *)

(** The values [JSON.parse] can produce, plus [undefined].  Object fields
    are kept in source order. *)
Inductive jsval : Type :=
| JUndefined
| JNull
| JBool (b : bool)
| JNum (n : Z)
| JStr (s : string)
| JArr (items : list jsval)
| JObj (fields : list (string * jsval)).

(** ToBoolean. *)
Definition truthy (v : jsval) : bool :=
  match v with
  | JUndefined | JNull => false
  | JBool b => b
  | JNum n => negb (n =? 0)
  | JStr s => negb (String.eqb s EmptyString)
  | JArr _ | JObj _ => true
  end.

(** First binding of a key in an ordered field list. *)
Fixpoint assoc {A : Type} (k : string) (l : list (string * A)) : option A :=
  match l with
  | [] => None
  | (k', v) :: l' => if String.eqb k k' then Some v else assoc k l'
  end.

(** ** Coverage data *)

(** The per-file record istanbul keeps: hit counters for statements ([s]),
    functions ([f]) and branches ([b]), and the static location maps, which
    the runner never inspects ([meta]). *)
Record FileCoverage : Type := mkFileCoverage {
  fc_path : string;
  fc_s : gmap string Z;
  fc_f : gmap string Z;
  fc_b : gmap string (list Z);
  fc_meta : string
}.

(** The object stored in [global[coverageVar]]: file path to coverage
    record, in insertion order, one binding per key.  The values are always
    objects, so [!cov[file]] holds exactly when [file] is not a key. *)
Abbreviation CounterTable := (list (string * FileCoverage)).

Definition keys {A : Type} (t : list (string * A)) : list string := t.*1.

(** [t[k] = v]: overwrite in place, or append a new property. *)
Fixpoint setProp {A : Type} (k : string) (v : A) (t : list (string * A))
  : list (string * A) :=
  match t with
  | [] => [(k, v)]
  | (k', v') :: t' =>
      if String.eqb k k' then (k, v) :: t' else (k', v') :: setProp k v t'
  end.

(** ** The process state *)

(** What a path resolves to on disk.  The file system of a world maps
    every path that resolves; on a case-insensitive volume several
    spellings resolve to the same file. *)
Inductive node : Type :=
| File (content : string)
| Dir.

(** An instance of [CoverageRunner].  [fileMap] holds the keys of the
    local object [fileMap] of [setupCoverage], which [matchFn] closes over
    and [matchFn.files] lists; [unhookRequire] is the handle
    [iLibHook.hookRequire] returned.  Both are unset until
    [setupCoverage] runs.  The instrumenter is determined by
    [coverageVar]; its mutable field [fileCoverage] is read only right
    after [transformer] assigned it, so [transformer] returns it. *)
Record CoverageRunner : Type := mkRunner {
  options : jsval;
  testsRoot : string;
  coverageVar : string;
  fileMap : list string;
  unhookRequire : option nat
}.

(** A require hook installed by [iLibHook.hookRequire]: the matcher's
    file table, the coverage variable of the transformer's instrumenter,
    and the flag the unhook function clears. *)
Record Hook : Type := mkHook {
  hk_files : list string;
  hk_coverageVar : string;
  hk_enabled : bool
}.

Definition Callback : Type := nat.

(** What a [throw] carries. *)
Inductive exn : Type :=
| TypeError (msg : string)
| SyntaxError (msg : string)
| ENOENT (path : string)
| ENOTDIR (path : string)
| EISDIR (path : string)
| EEXIST (path : string)
| InstrumentError (path : string)
| UnknownReport (reportType : jsval).

(** The first argument of the completion callback: a plain value, or the
    exception object a [catch] clause received. *)
Inductive cbError : Type :=
| ErrVal (v : jsval)
| ErrExn (e : exn).

(** What the module makes the outside world do, in order. *)
Inductive Event : Type :=
| EvDecache (path : string)
| EvConsoleError (msg : string)
| EvCallback (clb : Callback) (error : cbError) (result : jsval)
| EvMkdir (dir : string)
| EvWriteFile (path data : string)
| EvRender (reportType : jsval) (dir : string) (coverageMap : CounterTable)
| EvMochaAddFile (path : string)
| EvMochaRun.

Record World : Type := mkWorld {
  fs : gmap string node;
  globals : gmap string CounterTable;
  exitListeners : list CoverageRunner;
  requireHooks : list Hook;
  clock : Z;
  testOptions : jsval;
  mochaOpts : jsval;
  pendingGlob : list (string * Callback);
  trace : list Event
}.

Definition set_fs (x : gmap string node) (w : World) : World :=
  mkWorld x (globals w) (exitListeners w) (requireHooks w) (clock w)
          (testOptions w) (mochaOpts w) (pendingGlob w) (trace w).
Definition set_globals (x : gmap string CounterTable) (w : World) : World :=
  mkWorld (fs w) x (exitListeners w) (requireHooks w) (clock w)
          (testOptions w) (mochaOpts w) (pendingGlob w) (trace w).
Definition set_exitListeners (x : list CoverageRunner) (w : World) : World :=
  mkWorld (fs w) (globals w) x (requireHooks w) (clock w)
          (testOptions w) (mochaOpts w) (pendingGlob w) (trace w).
Definition set_requireHooks (x : list Hook) (w : World) : World :=
  mkWorld (fs w) (globals w) (exitListeners w) x (clock w)
          (testOptions w) (mochaOpts w) (pendingGlob w) (trace w).
Definition set_module (mo to : jsval) (w : World) : World :=
  mkWorld (fs w) (globals w) (exitListeners w) (requireHooks w) (clock w)
          to mo (pendingGlob w) (trace w).
Definition set_pendingGlob (x : list (string * Callback)) (w : World) : World :=
  mkWorld (fs w) (globals w) (exitListeners w) (requireHooks w) (clock w)
          (testOptions w) (mochaOpts w) x (trace w).
Definition emit (e : Event) (w : World) : World :=
  mkWorld (fs w) (globals w) (exitListeners w) (requireHooks w) (clock w)
          (testOptions w) (mochaOpts w) (pendingGlob w) (trace w ++ [e]).

(** ** Computations *)

Inductive result (A : Type) : Type :=
| Return (a : A)
| Throw (e : exn).
Arguments Return {A} a.
Arguments Throw {A} e.

(** A computation runs from a world to an outcome and the world it leaves
    behind; effects performed before a [throw] stay. *)
Definition M (A : Type) : Type := World → result A * World.

Definition ret {A} (a : A) : M A := λ w, (Return a, w).
Definition throw {A} (e : exn) : M A := λ w, (Throw e, w).
Definition bind {A B} (m : M A) (k : A → M B) : M B :=
  λ w, match m w with
       | (Return a, w') => k a w'
       | (Throw e, w') => (Throw e, w')
       end.
Definition try_catch {A} (m : M A) (handler : exn → M A) : M A :=
  λ w, match m w with
       | (Return a, w') => (Return a, w')
       | (Throw e, w') => handler e w'
       end.
Definition gets {A} (f : World → A) : M A := λ w, (Return (f w), w).
Definition modify (f : World → World) : M unit := λ w, (Return tt, f w).

Notation "'let!' x ':=' c 'in' k" := (bind c (λ x, k))
  (at level 10, x pattern, c at level 100, k at level 200).
Notation "c ';;' k" := (bind c (λ _, k))
  (at level 100, k at level 200, right associativity).

(** [array.forEach(body)]. *)
Fixpoint forEach {A} (l : list A) (body : A → M unit) : M unit :=
  match l with
  | [] => ret tt
  | x :: l' => body x ;; forEach l' body
  end.

(** [o.k] for the property names the module reads, none of which is
    inherited from a prototype: reading a property of [undefined] or
    [null] throws, a primitive or an array has no such property. *)
Definition getProp (o : jsval) (k : string) : M jsval :=
  match o with
  | JUndefined | JNull =>
      throw (TypeError ("Cannot read property '" +:+ k +:+ "' of undefined"))
  | JObj fields => ret (default JUndefined (assoc k fields))
  | _ => ret JUndefined
  end.

(** ** The packages the module calls *)

(** What the npm packages and the host compute.  [instrumentSync] and
    [JSON_parse] return [None] where the JavaScript function throws;
    [glob_sync] (for [glob.sync], which rejects options it cannot use)
    and [transformCoverage] (for
    [mapStore.transformCoverage(iLibCoverage.createCoverageMap(cov)).map],
    which fails on records and source maps it cannot use) give the
    value returned or the exception thrown. *)
Class Externals : Type := {
  os_platform : string;
  process_pid : Z;
  path_join_str : string → string → string;
  path_resolve : string → string → string;
  path_dirname : string → string;
  toLocaleLowerCase : string → string;
  glob_sync : gmap string node → jsval → string → result (list string);
  JSON_parse : string → option jsval;
  JSON_stringify : CounterTable → string;
  instrumentSync : string → string → string → jsval → option (string * FileCoverage);
  runInstrumented : string → FileCoverage → FileCoverage;
  transformCoverage : CounterTable → result CounterTable;
  iReports_known : jsval → bool
}.

Section Program.
Context `{Ext : Externals}.

(** *** Node built-ins *)

(** [path.join] rejects an argument that is not a string. *)
Definition path_join (a b : jsval) : M string :=
  match a, b with
  | JStr x, JStr y => ret (path_join_str x y)
  | _, _ => throw (TypeError "Path must be a string")
  end.

Definition fs_existsSync (p : string) : M bool :=
  gets (λ w, bool_decide (is_Some (fs w !! p))).

(** Whether the nearest ancestor of [p] that resolves is a regular
    file; a path has no more ancestors than characters. *)
Fixpoint underFile (fuel : nat) (files : gmap string node) (p : string) : bool :=
  match fuel with
  | O => false
  | S fuel' =>
      match files !! path_dirname p with
      | Some (File _) => true
      | Some Dir => false
      | None => underFile fuel' files (path_dirname p)
      end
  end.

(** The error of an operation on a path that the file system cannot
    reach: ENOTDIR when a regular file stands where a directory is
    needed, ENOENT when a component is missing. *)
Definition pathError (w : World) (p : string) : exn :=
  if underFile (S (String.length p)) (fs w) p then ENOTDIR p else ENOENT p.

Definition fs_readFileSync (p : string) : M string :=
  λ w, match fs w !! p with
       | Some (File c) => (Return c, w)
       | Some Dir => (Throw (EISDIR p), w)
       | None => (Throw (pathError w p), w)
       end.

Definition isDir (w : World) (p : string) : bool :=
  match fs w !! p with Some Dir => true | _ => false end.

(** [fs.mkdirSync] without [recursive]: the parent must be a directory
    and the path must be free. *)
Definition fs_mkdirSync (dir : string) : M unit :=
  λ w, if negb (isDir w (path_dirname dir)) then (Throw (pathError w dir), w)
       else match fs w !! dir with
            | Some _ => (Throw (EEXIST dir), w)
            | None => (Return tt, emit (EvMkdir dir) (set_fs (<[dir := Dir]> (fs w)) w))
            end.

Definition fs_writeFileSync (p data : string) : M unit :=
  λ w, if isDir w p then (Throw (EISDIR p), w)
       else if negb (isDir w (path_dirname p)) then (Throw (pathError w p), w)
       else (Return tt, emit (EvWriteFile p data) (set_fs (<[p := File data]> (fs w)) w)).

Definition JSON_parse_M (text : string) : M jsval :=
  match JSON_parse text with
  | Some v => ret v
  | None => throw (SyntaxError "Unexpected token in JSON")
  end.

Definition console_error (msg : string) : M unit := modify (emit (EvConsoleError msg)).

(** A library call that returns or throws and does nothing else. *)
Definition external {A} (r : result A) : M A := λ w, (r, w).

(** Calling the completion callback; it is the caller's function and is
    taken to return [undefined] without throwing. *)
Definition call (clb : Callback) (error : cbError) (result : jsval) : M jsval :=
  modify (emit (EvCallback clb error result)) ;; ret JUndefined.

(** *** index.js *)

(** [function configure(mochaOpts, testOpts)]. *)
Definition configure (mochaOpts testOpts : jsval) : M unit :=
  modify (set_module mochaOpts testOpts).

(** The process once the module is loaded: [mocha] is built with the
    default options, [testOptions] is declared and not assigned. *)
Definition moduleLoaded (files : gmap string node) (now : Z) : World :=
  mkWorld files ∅ [] [] now JUndefined
          (JObj [("ui", JStr "tdd"); ("useColors", JBool true)]) [] [].

(** [function mkDirIfExists(dir)]. *)
Definition mkDirIfExists (dir : string) : M unit :=
  let! present := fs_existsSync dir in
  if negb present then fs_mkdirSync dir else ret tt.

Definition coverageVarAt (t : Z) : string := "$$cov_" +:+ pretty t +:+ "$$".

Definition relativeSourcePath_error : string :=
  "Error - relativeSourcePath must be defined for code coverage to work".

(** [new CoverageRunner(options, testsRoot, endRunCallback)].  The
    callback returns no object, so the [return] inside the constructor
    leaves [this] as the value of the [new] expression. *)
Definition new_CoverageRunner (opts : jsval) (root : string)
    (endRunCallback : Callback) : M CoverageRunner :=
  let! now := gets clock in
  let this := mkRunner opts root (coverageVarAt now) [] None in
  let! rsp := getProp opts "relativeSourcePath" in
  if negb (truthy rsp)
  then call endRunCallback (ErrVal (JStr relativeSourcePath_error)) JUndefined ;; ret this
  else ret this.

(** The function [matchFn] of [setupCoverage], over the keys of
    [fileMap]; [fileMap[file]] is [true] or [undefined]. *)
Definition matchFn (files : list string) (file : string) : bool :=
  let file :=
    if String.eqb os_platform "win32" then toLocaleLowerCase file else file in
  bool_decide (file ∈ files).

(** [fileMap[fullPath] = true] on the keys of [fileMap]. *)
Definition addKey (k : string) (ks : list string) : list string :=
  if bool_decide (k ∈ ks) then ks else ks ++ [k].

(** The body of [srcFiles.forEach] in [setupCoverage], threading the
    object [fileMap]. *)
Definition addSourceFile (sourceRoot : string) (files : list string)
    (file : string) : M (list string) :=
  let fullPath := path_join_str sourceRoot file in
  let fullPath :=
    if String.eqb os_platform "win32" then toLocaleLowerCase fullPath
    else fullPath in
  let files := addKey fullPath files in
  modify (emit (EvDecache fullPath)) ;;
  ret files.

Fixpoint addSourceFiles (sourceRoot : string) (files : list string)
    (srcFiles : list string) : M (list string) :=
  match srcFiles with
  | [] => ret files
  | file :: rest =>
      let! files := addSourceFile sourceRoot files file in
      addSourceFiles sourceRoot files rest
  end.

(** [this.transformer], for the instrumenter created with
    [coverageVariable: cv]; returns the instrumented text together with
    the [fileCoverage] the instrumenter holds afterwards. *)
Definition transformer (cv code filename : string) : M (string * FileCoverage) :=
  let! map :=
    try_catch
      (let! text := fs_readFileSync (filename +:+ ".map") in JSON_parse_M text)
      (λ _, ret JUndefined) in
  match instrumentSync cv code filename map with
  | Some out => ret out
  | None => throw (InstrumentError filename)
  end.

(** [iLibHook.hookRequire(matchFn, transformer, hookOpts)]: the hook is
    appended to the installed ones; the returned function disables it. *)
Definition hookRequire (files : list string) (cv : string) : M nat :=
  let! n := gets (λ w, length (requireHooks w)) in
  modify (λ w, set_requireHooks (requireHooks w ++ [mkHook files cv true]) w) ;;
  ret n.

Definition disable (h : Hook) : Hook := mkHook (hk_files h) (hk_coverageVar h) false.

Definition call_unhookRequire (this : CoverageRunner) : M unit :=
  match unhookRequire this with
  | Some n => modify (λ w, set_requireHooks (alter disable n (requireHooks w)) w)
  | None => throw (TypeError "this.unhookRequire is not a function")
  end.

(** [CoverageRunner.prototype.setupCoverage]; returns [this] with the
    fields the method assigned. *)
Definition setupCoverage (this : CoverageRunner) : M CoverageRunner :=
  let! rsp := getProp (options this) "relativeSourcePath" in
  let! sourceRoot := path_join (JStr (testsRoot this)) rsp in
  let! ignore := getProp (options this) "ignorePatterns" in
  let! disk := gets fs in
  let! srcFiles := external (glob_sync disk ignore sourceRoot) in
  let! files := addSourceFiles sourceRoot [] srcFiles in
  let! handle := hookRequire files (coverageVar this) in
  let this := mkRunner (options this) (testsRoot this) (coverageVar this)
                       files (Some handle) in
  modify (λ w, set_globals (<[coverageVar this := []]> (globals w)) w) ;;
  modify (λ w, set_exitListeners (exitListeners w ++ [this]) w) ;;
  ret this.

(** [Object.keys(fc.s).forEach(key => fc.s[key] = 0)]. *)
Definition zeroStatements (fc : FileCoverage) : FileCoverage :=
  mkFileCoverage (fc_path fc) ((λ _, 0) <$> fc_s fc) (fc_f fc) (fc_b fc) (fc_meta fc).

(** The object [cov] of [reportCoverage] is the one [global[coverageVar]]
    holds; the loop reads and writes it there. *)
Definition covOf (cv : string) (w : World) : CounterTable :=
  default [] (globals w !! cv).

(** The body of [this.matchFn.files.forEach] in [reportCoverage]. *)
Definition fillMissing (this : CoverageRunner) (file : string) : M unit :=
  let! cov := gets (covOf (coverageVar this)) in
  if negb (bool_decide (is_Some (assoc file cov))) then
    let! code := fs_readFileSync file in
    let! out := transformer (coverageVar this) code file in
    let fileCoverage := zeroStatements out.2 in
    modify (λ w, set_globals
                   (<[coverageVar this := setProp file fileCoverage cov]> (globals w)) w)
  else ret tt.

(** [tree.visit(iReports.create(reportType), context)]. *)
Definition renderReport (dir : string) (coverageMap : CounterTable)
    (reportType : jsval) : M unit :=
  if iReports_known reportType
  then modify (emit (EvRender reportType dir coverageMap))
  else throw (UnknownReport reportType).

(** The list [reportTypes] of [reportCoverage]:
    [(reports instanceof Array) ? reports : ['lcovonly']]. *)
Definition reportTypesOf (reports : jsval) : list jsval :=
  match reports with
  | JArr items => items
  | _ => [JStr "lcovonly"]
  end.

Definition noCoverage_message : string :=
  "No coverage information was collected, exit without writing coverage information".

(** The part of [reportCoverage] after the loop over [matchFn.files]:
    source-map translation, the JSON snapshot, the reports. *)
Definition writeReports (this : CoverageRunner) : M unit :=
  let! cov := gets (covOf (coverageVar this)) in
  let! coverageMap := external (transformCoverage cov) in
  let! rcd := getProp (options this) "relativeCoverageDir" in
  let! reportingDir := path_join (JStr (testsRoot this)) rcd in
  let! includePid := getProp (options this) "includePid" in
  let pidExt := if truthy includePid then "-" +:+ pretty process_pid else EmptyString in
  let coverageFile := path_resolve reportingDir ("coverage" +:+ pidExt +:+ ".json") in
  mkDirIfExists reportingDir ;;
  fs_writeFileSync coverageFile (JSON_stringify cov) ;;
  let! reports := getProp (options this) "reports" in
  forEach (reportTypesOf reports) (renderReport reportingDir coverageMap).

(** The part of [reportCoverage] after the counter table was found. *)
Definition emitReports (this : CoverageRunner) : M unit :=
  forEach (fileMap this) (fillMissing this) ;;
  writeReports this.

(** [CoverageRunner.prototype.reportCoverage]. *)
Definition reportCoverage (this : CoverageRunner) : M unit :=
  call_unhookRequire this ;;
  let! table := gets (λ w, globals w !! coverageVar this) in
  match table with
  | None => console_error noCoverage_message
  | Some [] => console_error noCoverage_message
  | Some (_ :: _) => emitReports this
  end.

(** [function readCoverOptions(testsRoot)]. *)
Definition readCoverOptions (root : string) : M jsval :=
  let! opts := gets testOptions in
  let! coverConfig := getProp opts "coverConfig" in
  let! coverConfigPath := path_join (JStr root) coverConfig in
  let! present := fs_existsSync coverConfigPath in
  if present then
    let! configContent := fs_readFileSync coverConfigPath in
    JSON_parse_M configContent
  else ret JUndefined.

(** *** The host: module loading, the test engine, process exit *)

(** Running the text the instrumenter produced for [filename]: it
    registers the file's record under [global[cv]] unless one is there,
    and counts in it what the module executes. *)
Definition runInstrumentedModule (cv filename : string) (fc : FileCoverage) : M unit :=
  modify (λ w,
    let cov := covOf cv w in
    let data := default fc (assoc filename cov) in
    set_globals (<[cv := setProp filename (runInstrumented filename data) cov]> (globals w)) w).

(** One installed hook meeting a module load: an enabled hook whose
    matcher accepts the file name hands the text and that same file name
    to its transformer; a transformer that throws leaves the original
    text, which counts nothing. *)
Definition applyHook (filename code : string) (h : Hook) : M unit :=
  if hk_enabled h && matchFn (hk_files h) filename then
    try_catch
      (let! out := transformer (hk_coverageVar h) code filename in
       runInstrumentedModule (hk_coverageVar h) filename out.2)
      (λ _, ret tt)
  else ret tt.

(** [require(filename)] of a module that is not cached. *)
Definition requireFile (filename : string) : M unit :=
  let! code := fs_readFileSync filename in
  let! hooks := gets requireHooks in
  forEach hooks (applyHook filename code).

(** What a test run does, as far as this module can observe: the source
    modules it loads, and whether it ends with an exception or with a
    failure count. *)
Record TestRun : Type := mkTestRun {
  tr_loads : list string;
  tr_outcome : exn + Z
}.

Definition mocha_addFile (p : string) : M unit := modify (emit (EvMochaAddFile p)).

(** [mocha.run(fn)]. *)
Definition mocha_run (t : TestRun) (fn : Z → M unit) : M unit :=
  modify (emit EvMochaRun) ;;
  forEach (tr_loads t) requireFile ;;
  match tr_outcome t with
  | inl e => throw e
  | inr failures => fn failures
  end.

(** [glob(pattern, opts, cb)]: the search is asynchronous, [cb] runs in a
    later turn. *)
Definition glob_async (root : string) (clb : Callback) : M unit :=
  modify (λ w, set_pendingGlob (pendingGlob w ++ [(root, clb)]) w).

(** *** index.js, continued *)

(** The function [run] passes to [glob], called with the outcome of the
    search. *)
Definition globCallback (root : string) (clb : Callback) (t : TestRun)
    (error : jsval) (files : list string) : M jsval :=
  if truthy error then call clb (ErrVal error) JUndefined
  else
    try_catch
      (forEach files (λ f, mocha_addFile (path_join_str root f)) ;;
       mocha_run t (λ failureCount,
         call clb (ErrVal JUndefined) (JNum failureCount) ;; ret tt) ;;
       ret JUndefined)
      (λ error, call clb (ErrExn error) JUndefined).

(** [function run(testsRoot, clb)]. *)
Definition run (root : string) (clb : Callback) : M unit :=
  let! coverOptions := readCoverOptions root in
  let! enabled :=
    if truthy coverOptions then getProp coverOptions "enabled"
    else ret coverOptions in
  (if truthy enabled then
     let! coverageRunner := new_CoverageRunner coverOptions root clb in
     setupCoverage coverageRunner ;; ret tt
   else ret tt) ;;
  glob_async root clb.

(** The [exit] event of [process]: the listeners run in the order they
    were registered. *)
Definition processExit : M unit :=
  let! listeners := gets exitListeners in
  forEach listeners reportCoverage.

End Program.

(** ** A concrete host

    A small instance of [Externals], used to run the model on concrete
    inputs: POSIX-like paths, ASCII lower-casing, a globber that lists the
    [.js] files directly under a directory and rejects a number given as
    ignore patterns, a JSON reader that knows a handful of configuration
    texts, an instrumenter that gives every file two statement counters,
    the first pre-seeded with 1, and a source-map store that returns the
    table it is given. *)
Module Demo.

Definition lower_ascii (c : ascii) : ascii :=
  let n := nat_of_ascii c in
  if ((65 <=? n) && (n <=? 90))%nat then ascii_of_nat (n + 32) else c.

Fixpoint lower (s : string) : string :=
  match s with
  | EmptyString => EmptyString
  | String c s' => String (lower_ascii c) (lower s')
  end.

(** Drops the characters up to and including the first separator. *)
Fixpoint afterSep (s : string) : string :=
  match s with
  | EmptyString => EmptyString
  | String c s' => if Ascii.eqb c "/"%char then s' else afterSep s'
  end.

Definition dirname (p : string) : string := String.rev (afterSep (String.rev p)).

Definition join (a b : string) : string := a +:+ "/" +:+ b.

Fixpoint hasSep (s : string) : bool :=
  match s with
  | EmptyString => false
  | String c s' => Ascii.eqb c "/"%char || hasSep s'
  end.

Definition endsWith (suffix s : string) : bool :=
  String.prefix (String.rev suffix) (String.rev s).

(** The name of [p] relative to [cwd] when [p] is a [.js] file directly
    inside [cwd]. *)
Definition relativeJs (cwd : string) (entry : string * node) : option string :=
  match entry with
  | (p, File _) =>
      let base := cwd +:+ "/" in
      let rest := String.substring (String.length base)
                    (String.length p - String.length base) p in
      if String.prefix base p && endsWith ".js" p && negb (hasSep rest)
      then Some rest else None
  | (_, Dir) => None
  end.

Definition glob (files : gmap string node) (ignore : jsval) (cwd : string)
  : list string :=
  omap (relativeJs cwd) (map_to_list files).

(** The globber rejects a number given as ignore patterns. *)
Definition globSync (files : gmap string node) (ignore : jsval) (cwd : string)
  : result (list string) :=
  match ignore with
  | JNum _ => Throw (TypeError "ignore patterns must be strings")
  | _ => Return (glob files ignore cwd)
  end.

Definition cfg_disabled : jsval := JObj [("enabled", JBool false)].
Definition cfg_noSource : jsval := JObj [("enabled", JBool true)].
Definition cfg_pid (reports : jsval) : jsval :=
  JObj [("enabled", JBool true); ("relativeSourcePath", JStr "src");
        ("relativeCoverageDir", JStr "coverage"); ("includePid", JBool true);
        ("reports", reports)].
Definition cfg_plain : jsval :=
  JObj [("enabled", JBool true); ("relativeSourcePath", JStr "src");
        ("relativeCoverageDir", JStr "coverage")].

Definition parse (text : string) : option jsval :=
  if String.eqb text "disabled" then Some cfg_disabled
  else if String.eqb text "no-source" then Some cfg_noSource
  else if String.eqb text "plain" then Some cfg_plain
  else if String.eqb text "pid-empty" then Some (cfg_pid (JArr []))
  else if String.eqb text "pid-two" then Some (cfg_pid (JArr [JStr "lcovonly"; JStr "html"]))
  else None.

Definition total (s : gmap string Z) : Z := map_fold (λ _ n acc, n + acc) 0 s.

Definition stringify (cov : CounterTable) : string :=
  String.concat ";" ((λ e, e.1 +:+ "=" +:+ pretty (total (fc_s e.2))) <$> cov).

Definition instrument (cv code filename : string) (map : jsval)
  : option (string * FileCoverage) :=
  if String.eqb code "syntax error" then None
  else Some (cv +:+ ":" +:+ code,
             mkFileCoverage filename {["0" := 1; "1" := 0]} ∅ ∅ code).

Definition bump (filename : string) (fc : FileCoverage) : FileCoverage :=
  mkFileCoverage (fc_path fc) ((λ n, n + 1) <$> fc_s fc) (fc_f fc) (fc_b fc) (fc_meta fc).

Definition known (reportType : jsval) : bool :=
  match reportType with
  | JStr t => bool_decide (t ∈ ["lcovonly"; "html"; "json"; "text"])
  | _ => false
  end.

Definition host (platform : string) : Externals := {|
  os_platform := platform;
  process_pid := 4242;
  path_join_str := join;
  path_resolve := join;
  path_dirname := dirname;
  toLocaleLowerCase := lower;
  glob_sync := globSync;
  JSON_parse := parse;
  JSON_stringify := stringify;
  instrumentSync := instrument;
  runInstrumented := bump;
  transformCoverage := Return;
  iReports_known := known
|}.

Definition linux : Externals := host "linux".
Definition win32 : Externals := host "win32".

(** A project with two source files and a coverage configuration. *)
Definition project (config : string) : gmap string node :=
  {[ "/" := Dir; "/p" := Dir; "/p/src" := Dir;
     "/p/src/a.js" := File "a"; "/p/src/b.js" := File "b";
     "/p/cover.json" := File config ]}.

(** The same project on a case-insensitive volume: the one source file
    is stored as [/P/src/A.js], and its lower-case spelling resolves to
    it as well. *)
Definition projectNoCase : gmap string node :=
  {[ "/" := Dir; "/P" := Dir; "/P/src" := Dir;
     "/P/src/A.js" := File "a"; "/p/src/a.js" := File "a";
     "/P/cover.json" := File "plain" ]}.

(** The process after [configure] was called with the name of the
    coverage configuration. *)
Definition boot (files : gmap string node) (now : Z) : World :=
  (configure JUndefined (JObj [("coverConfig", JStr "cover.json")])
     (moduleLoaded files now)).2.

(** A whole test run up to, but not including, the exit of the process:
    [run], then the callback of the search with one test file, the tests
    loading [loads] and ending with no failure. *)
Definition session (ext : Externals) (files : gmap string node) (root : string)
    (loads : list string) : World :=
  let w1 := (run (Ext := ext) root 1%nat (boot files 1000)).2 in
  (globCallback (Ext := ext) root 1%nat (mkTestRun loads (inr 0)) JUndefined
     ["x.test.js"] w1).2.

(** The runner whose report step the exit of the process calls first. *)
Definition runnerOf (w : World) : CoverageRunner :=
  default (mkRunner JUndefined EmptyString EmptyString [] None)
          (head (exitListeners w)).

End Demo.

(** ** Properties *)

(** Projections of the event trace. *)
Definition renders (t : list Event) : list jsval :=
  omap (λ e, match e with EvRender ty _ _ => Some ty | _ => None end) t.

Definition writes (t : list Event) : list (string * string) :=
  omap (λ e, match e with EvWriteFile p d => Some (p, d) | _ => None end) t.

(** The source map next to [filename] is missing or unreadable: no file
    resolves at [filename.map], or a directory does, or its text is not
    JSON. *)
Definition sourceMapUnavailable `{Externals} (w : World) (filename : string) : Prop :=
  match fs w !! (filename +:+ ".map") with
  | Some (File text) => JSON_parse text = None
  | _ => True
  end.

(** The coverage configuration [run] finds under [root]: [None] when no
    file is there. *)
Definition configAt `{Externals} (w : World) (root name : string) : option node :=
  fs w !! path_join_str root name.

(** The record the report loop stores for a file that has no entry, read
    off a file system: the instrumenter's coverage of the file's text,
    statement counters zeroed; [None] where the loop body throws. *)
Definition synthetic `{Externals} (cv : string) (files : gmap string node)
    (file : string) : option FileCoverage :=
  match files !! file with
  | Some (File code) =>
      let map :=
        match files !! (file +:+ ".map") with
        | Some (File text) => default JUndefined (JSON_parse text)
        | _ => JUndefined
        end in
      (λ out, zeroStatements out.2) <$> instrumentSync cv code file map
  | _ => None
  end.

(** The counter table the report loop leaves, as a function of the table
    it starts from. *)
Fixpoint fill `{Externals} (cv : string) (files : gmap string node)
    (paths : list string) (cov : CounterTable) : option CounterTable :=
  match paths with
  | [] => Some cov
  | file :: rest =>
      match assoc file cov with
      | Some _ => fill cv files rest cov
      | None =>
          match synthetic cv files file with
          | Some fc => fill cv files rest (setProp file fc cov)
          | None => None
          end
      end
  end.

(** The value of [o.k] where reading it does not throw. *)
Definition prop (o : jsval) (k : string) : jsval :=
  match o with
  | JObj fields => default JUndefined (assoc k fields)
  | _ => JUndefined
  end.

(** The path of the JSON snapshot inside the reporting directory. *)
Definition coverageFileOf `{Externals} (this : CoverageRunner) (dir : string) : string :=
  path_resolve dir
    ("coverage"
     +:+ (if truthy (prop (options this) "includePid")
          then "-" +:+ pretty process_pid else EmptyString)
     +:+ ".json").

(** Appending a run of events to the trace. *)
Definition emits (evs : list Event) (w : World) : World :=
  mkWorld (fs w) (globals w) (exitListeners w) (requireHooks w) (clock w)
          (testOptions w) (mochaOpts w) (pendingGlob w) (trace w ++ evs).

(** The world after a [mkDirIfExists dir] that returned. *)
Definition withDir (dir : string) (w : World) : World :=
  if bool_decide (is_Some (fs w !! dir)) then w
  else emit (EvMkdir dir) (set_fs (<[dir := Dir]> (fs w)) w).

(** The world after a [fs.writeFileSync(file, data)] that returned. *)
Definition withFile (file data : string) (w : World) : World :=
  emit (EvWriteFile file data) (set_fs (<[file := File data]> (fs w)) w).

(** The key [setupCoverage] puts into [fileMap] for a globbed name. *)
Definition fullPathOf `{Externals} (sourceRoot file : string) : string :=
  let fullPath := path_join_str sourceRoot file in
  if String.eqb os_platform "win32" then toLocaleLowerCase fullPath else fullPath.

(** The table under [cv] has one binding per key, and only keys from
    [paths]. *)
Definition tableWithin (cv : string) (paths : list string) (w : World) : Prop :=
  ∃ cov, globals w !! cv = Some cov
         ∧ NoDup (keys cov) ∧ ∀ k, k ∈ keys cov → k ∈ paths.

(** Every hook that counts into [cv] matches only files of [paths]. *)
Definition hooksWithin (cv : string) (paths : list string) (hooks : list Hook) : Prop :=
  ∀ h, h ∈ hooks → hk_coverageVar h = cv → ∀ f, f ∈ hk_files h → f ∈ paths.

(** [w'] has the file system, the exit listeners and the require hooks
    of [w]: nothing was written, registered or hooked in between. *)
Definition frame (w w' : World) : Prop :=
  fs w' = fs w
  ∧ exitListeners w' = exitListeners w
  ∧ requireHooks w' = requireHooks w.

Definition keepsFrame {A} (m : M A) : Prop := ∀ w, frame w (m w).2.

(** The calls of completion callbacks recorded in a trace. *)
Definition callbacks (t : list Event) : list (Callback * cbError * jsval) :=
  omap (λ e, match e with EvCallback c err r => Some (c, err, r) | _ => None end) t.

(** The reports rendered in a trace: type, directory, coverage map. *)
Definition rendered (t : list Event) : list (jsval * string * CounterTable) :=
  omap (λ e, match e with EvRender ty d m => Some (ty, d, m) | _ => None end) t.

(** The module-cache evictions recorded in a trace. *)
Definition decached (t : list Event) : list string :=
  omap (λ e, match e with EvDecache p => Some p | _ => None end) t.

(** The computation [m] leaves the observation [f] of the world as it
    found it, whether it returns or throws. *)
Definition keepsField {A B} (f : World → B) (m : M A) : Prop :=
  ∀ w, f (m w).2 = f w.

(** A second concrete host: the one of [Demo] with a JSON reader that
    knows a few more configuration texts. *)
Module Demo2.

Definition cfg_emptySource : jsval :=
  JObj [("enabled", JBool true); ("relativeSourcePath", JStr EmptyString);
        ("relativeCoverageDir", JStr "coverage")].
Definition cfg_noEnabled : jsval :=
  JObj [("relativeSourcePath", JStr "src"); ("relativeCoverageDir", JStr "coverage")].
Definition cfg_noDir : jsval :=
  JObj [("enabled", JBool true); ("relativeSourcePath", JStr "src")].
Definition cfg_badIgnore : jsval :=
  JObj [("enabled", JBool true); ("relativeSourcePath", JStr "src");
        ("relativeCoverageDir", JStr "coverage"); ("ignorePatterns", JNum 42)].
Definition cfg_badReport : jsval :=
  JObj [("enabled", JBool true); ("relativeSourcePath", JStr "src");
        ("relativeCoverageDir", JStr "coverage");
        ("reports", JArr [JStr "lcovonly"; JStr "nope"; JStr "html"])].

Definition parse (text : string) : option jsval :=
  if String.eqb text "empty-source" then Some cfg_emptySource
  else if String.eqb text "no-enabled" then Some cfg_noEnabled
  else if String.eqb text "no-dir" then Some cfg_noDir
  else if String.eqb text "bad-report" then Some cfg_badReport
  else if String.eqb text "bad-ignore" then Some cfg_badIgnore
  else if String.eqb text "null" then Some JNull
  else Demo.parse text.

Definition linux : Externals := {|
  os_platform := "linux";
  process_pid := 4242;
  path_join_str := Demo.join;
  path_resolve := Demo.join;
  path_dirname := Demo.dirname;
  toLocaleLowerCase := Demo.lower;
  glob_sync := Demo.globSync;
  JSON_parse := parse;
  JSON_stringify := Demo.stringify;
  instrumentSync := Demo.instrument;
  runInstrumented := Demo.bump;
  transformCoverage := Return;
  iReports_known := Demo.known
|}.

(** A whole test run on that host, up to the exit of the process. *)
Definition session (files : gmap string node) (loads : list string) : World :=
  let w1 := (run (Ext := linux) "/p" 1%nat (Demo.boot files 1000)).2 in
  (globCallback (Ext := linux) "/p" 1%nat (mkTestRun loads (inr 0)) JUndefined
     ["x.test.js"] w1).2.

(** The same host with a source-map store that rejects every table. *)
Definition brokenStore : Externals := {|
  os_platform := "linux";
  process_pid := 4242;
  path_join_str := Demo.join;
  path_resolve := Demo.join;
  path_dirname := Demo.dirname;
  toLocaleLowerCase := Demo.lower;
  glob_sync := Demo.globSync;
  JSON_parse := parse;
  JSON_stringify := Demo.stringify;
  instrumentSync := Demo.instrument;
  runInstrumented := Demo.bump;
  transformCoverage := λ _, Throw (SyntaxError "Unexpected token in source map");
  iReports_known := Demo.known
|}.

End Demo2.

(** *** Ordered objects *)

Lemma assoc_setProp_eq {A} k (v : A) t : assoc k (setProp k v t) = Some v.
Proof.
  induction t as [|[k' v'] t IH]; simpl.
  - by rewrite String.eqb_refl.
  - destruct (String.eqb k k') eqn:E; simpl; rewrite ?String.eqb_refl, ?E; done.
Qed.

Lemma assoc_setProp_ne {A} k k' (v : A) t :
  k ≠ k' → assoc k' (setProp k v t) = assoc k' t.
Proof.
  intros Hne. induction t as [|[k0 v0] t IH]; simpl.
  - by apply String.eqb_neq in Hne; rewrite String.eqb_sym, Hne.
  - destruct (String.eqb k k0) eqn:E; simpl.
    + apply String.eqb_eq in E as <-.
      assert (String.eqb k' k = false) as -> by (apply String.eqb_neq; congruence).
      done.
    + by rewrite IH.
Qed.

Lemma assoc_None {A} k (t : list (string * A)) : assoc k t = None ↔ k ∉ keys t.
Proof.
  unfold keys. induction t as [|[k' v'] t IH]; simpl.
  - split; [intros _; apply not_elem_of_nil | done].
  - rewrite not_elem_of_cons. destruct (String.eqb k k') eqn:E.
    + apply String.eqb_eq in E as ->. split; [done | tauto].
    + apply String.eqb_neq in E. rewrite IH. tauto.
Qed.

Lemma assoc_is_Some {A} k (t : list (string * A)) : is_Some (assoc k t) ↔ k ∈ keys t.
Proof.
  rewrite <-not_eq_None_Some, assoc_None.
  split; [apply dec_stable | by intros ? ?].
Qed.

Lemma setProp_fresh {A} k (v : A) t : assoc k t = None → setProp k v t = t ++ [(k, v)].
Proof.
  induction t as [|[k' v'] t IH]; simpl; [done|].
  destruct (String.eqb k k'); [done|]. intros Hk. by rewrite IH.
Qed.

Lemma keys_cons {A} k (v : A) t : keys ((k, v) :: t) = k :: keys t.
Proof. done. Qed.

Lemma keys_setProp {A} k (v : A) t :
  keys (setProp k v t) = if bool_decide (k ∈ keys t) then keys t else keys t ++ [k].
Proof.
  induction t as [|[k' v'] t IH]; [done|].
  cbn [setProp]. rewrite (keys_cons k' v' t).
  destruct (String.eqb k k') eqn:E.
  - apply String.eqb_eq in E as ->. rewrite keys_cons.
    rewrite bool_decide_eq_true_2; [done | by left].
  - apply String.eqb_neq in E. rewrite keys_cons, IH.
    destruct (decide (k ∈ keys t)) as [Hin|Hout].
    + rewrite !bool_decide_eq_true_2; [done | by right | done].
    + rewrite !bool_decide_eq_false_2; [done | | done].
      rewrite elem_of_cons. tauto.
Qed.

Section Properties.
Context `{Ext : Externals}.

Ltac unfold_M :=
  unfold bind, ret, throw, gets, modify, try_catch, call, console_error,
    JSON_parse_M, getProp, path_join, fs_existsSync, fs_readFileSync in *.

(** *** The run entry point *)

Lemma transformer_world cv code filename w :
  (transformer cv code filename w).2 = w.
Proof.
  unfold transformer. unfold_M.
  destruct (fs w !! (filename +:+ ".map")) as [[text|]|]; simpl;
    [destruct (JSON_parse text); simpl|..];
    by destruct (instrumentSync _ _ _ _).
Qed.


Lemma readCoverOptions_unconfigured root w :
  testOptions w = JUndefined →
  ∃ msg, readCoverOptions root w = (Throw (TypeError msg), w).
Proof.
  intros Hopts. unfold readCoverOptions. unfold_M. rewrite Hopts. eauto.
Qed.

Lemma readCoverOptions_absent root w fields name :
  testOptions w = JObj fields →
  assoc "coverConfig" fields = Some (JStr name) →
  configAt w root name = None →
  readCoverOptions root w = (Return JUndefined, w).
Proof.
  unfold configAt. intros Hopts Hname Hfile.
  unfold readCoverOptions. unfold_M. rewrite Hopts, Hname. simpl.
  rewrite Hfile. rewrite bool_decide_eq_false_2; [done|].
  by intros [? ?].
Qed.

Lemma readCoverOptions_present root w fields name text cfg :
  testOptions w = JObj fields →
  assoc "coverConfig" fields = Some (JStr name) →
  configAt w root name = Some (File text) →
  JSON_parse text = Some cfg →
  readCoverOptions root w = (Return cfg, w).
Proof.
  unfold configAt. intros Hopts Hname Hfile Hparse.
  unfold readCoverOptions. unfold_M. rewrite Hopts, Hname. simpl.
  rewrite Hfile. rewrite bool_decide_eq_true_2 by eauto.
  simpl. rewrite Hfile, Hparse. reflexivity.
Qed.

(** C10. Before [configure] was ever called the module variable
    [testOptions] is [undefined]; [run] then throws a TypeError while
    reading [testOptions.coverConfig], and leaves the process as it found
    it: no search for test files is started, nothing is reported to the
    callback. *)
Theorem run_unconfigured_throws root clb w :
  testOptions w = JUndefined →
  ∃ msg, run root clb w = (Throw (TypeError msg), w).
Proof.
  intros Hopts.
  destruct (readCoverOptions_unconfigured root w Hopts) as [msg Hread].
  exists msg. unfold run, bind. by rewrite Hread.
Qed.

(** Computations that touch neither files, listeners nor hooks. *)
Lemma frame_refl w : frame w w.
Proof. done. Qed.

Lemma frame_trans w1 w2 w3 : frame w1 w2 → frame w2 w3 → frame w1 w3.
Proof. intros (? & ? & ?) (? & ? & ?). repeat split; congruence. Qed.

Lemma keepsFrame_bind {A B} (m : M A) (k : A → M B) :
  keepsFrame m → (∀ a, keepsFrame (k a)) → keepsFrame (bind m k).
Proof.
  intros Hm Hk w. unfold bind. specialize (Hm w).
  destruct (m w) as [[a|e] w1]; simpl in *; [|done].
  eapply frame_trans; [done | apply Hk].
Qed.

Lemma keepsFrame_try_catch {A} (m : M A) handler :
  keepsFrame m → (∀ e, keepsFrame (handler e)) → keepsFrame (try_catch m handler).
Proof.
  intros Hm Hh w. unfold try_catch. specialize (Hm w).
  destruct (m w) as [[a|e] w1]; simpl in *; [done|].
  eapply frame_trans; [done | apply Hh].
Qed.

Lemma keepsFrame_forEach {A} (l : list A) body :
  (∀ x, keepsFrame (body x)) → keepsFrame (forEach l body).
Proof.
  intros Hbody. induction l as [|x l IH]; [done|].
  simpl. apply keepsFrame_bind; [apply Hbody | done].
Qed.

Lemma keepsFrame_ret {A} (a : A) : keepsFrame (ret a).
Proof. done. Qed.

Lemma keepsFrame_throw {A} e : keepsFrame (throw (A := A) e).
Proof. done. Qed.

Lemma keepsFrame_emit e : keepsFrame (modify (emit e)).
Proof. done. Qed.

Lemma keepsFrame_call clb error result : keepsFrame (call clb error result).
Proof. done. Qed.

Lemma keepsFrame_transformer cv code filename :
  keepsFrame (transformer cv code filename).
Proof. intros w. by rewrite transformer_world. Qed.

Lemma keepsFrame_requireFile filename : keepsFrame (requireFile filename).
Proof.
  unfold requireFile. apply keepsFrame_bind.
  { intros w. unfold fs_readFileSync. by destruct (fs w !! filename) as [[]|]. }
  intros code. apply keepsFrame_bind; [done|]. intros hooks.
  apply keepsFrame_forEach. intros h. unfold applyHook.
  destruct (_ && _); [|done].
  apply keepsFrame_try_catch; [|done].
  apply keepsFrame_bind; [apply keepsFrame_transformer | done].
Qed.

Lemma keepsFrame_globCallback root clb t error files :
  keepsFrame (globCallback root clb t error files).
Proof.
  unfold globCallback. destruct (truthy error); [apply keepsFrame_call|].
  apply keepsFrame_try_catch; [|intros; apply keepsFrame_call].
  apply keepsFrame_bind; [by apply keepsFrame_forEach|]. intros _.
  apply keepsFrame_bind; [|done]. unfold mocha_run.
  apply keepsFrame_bind; [done|]. intros _.
  apply keepsFrame_bind.
  { apply keepsFrame_forEach, keepsFrame_requireFile. }
  intros _. destruct (tr_outcome t); [done|].
  apply keepsFrame_bind; [apply keepsFrame_call | done].
Qed.

(** C8. With the configuration file absent, or present with a false
    [enabled] flag, [run] returns normally and the one thing it did is
    start the search for test files: the file system (so no coverage
    directory), the exit listeners, the require hooks, the globals and
    the trace are those of the world it started in.  The callback of the
    search, which adds the test files and runs them, then leaves the
    file system, the exit listeners and the require hooks as they were,
    whatever the tests load and however they end. *)
Theorem run_coverage_off root clb w fields name :
  testOptions w = JObj fields →
  assoc "coverConfig" fields = Some (JStr name) →
  (configAt w root name = None ∨
   ∃ text cfgFields,
     configAt w root name = Some (File text) ∧
     JSON_parse text = Some (JObj cfgFields) ∧
     assoc "enabled" cfgFields = Some (JBool false)) →
  let w1 := set_pendingGlob (pendingGlob w ++ [(root, clb)]) w in
  run root clb w = (Return tt, w1)
  ∧ ∀ t error files, frame w (globCallback root clb t error files w1).2.
Proof.
  intros Hopts Hname Hoff w1. split.
  - destruct Hoff as [Habsent | (text & cf & Hfile & Hparse & Hoff)].
    + unfold run, bind at 1.
      rewrite (readCoverOptions_absent _ _ _ _ Hopts Hname Habsent).
      reflexivity.
    + unfold run, bind at 1.
      rewrite (readCoverOptions_present _ _ _ _ _ _ Hopts Hname Hfile Hparse).
      simpl. unfold_M. rewrite Hoff. reflexivity.
  - intros t error files.
    apply (keepsFrame_globCallback root clb t error files w1).
Qed.

(** C3. With [enabled] true and no [relativeSourcePath] in the
    configuration, [run] reports the error text to the completion
    callback, and that is all it does: the constructed runner fails in
    [setupCoverage] on [path.join] before a hook, a counter table or an
    exit listener exists, and the exception leaves [run] before the
    search for test files is started. *)
Theorem run_missing_relativeSourcePath root clb w fields name text cfgFields :
  testOptions w = JObj fields →
  assoc "coverConfig" fields = Some (JStr name) →
  configAt w root name = Some (File text) →
  JSON_parse text = Some (JObj cfgFields) →
  assoc "enabled" cfgFields = Some (JBool true) →
  assoc "relativeSourcePath" cfgFields = None →
  run root clb w
  = (Throw (TypeError "Path must be a string"),
     emit (EvCallback clb (ErrVal (JStr relativeSourcePath_error)) JUndefined) w).
Proof.
  intros Hopts Hname Hfile Hparse Hon Hrsp.
  unfold run, bind at 1.
  rewrite (readCoverOptions_present _ _ _ _ _ _ Hopts Hname Hfile Hparse).
  simpl. unfold new_CoverageRunner, setupCoverage. unfold_M. simpl.
  rewrite Hon, Hrsp. simpl. rewrite Hrsp. reflexivity.
Qed.

(** *** The transformer *)

(** C9. When the companion [.map] file is missing or unreadable, the
    transformer does exactly what the instrumenter does when handed the
    code, the file name and no source map: the failed read raises
    nothing, and whenever the instrumenter accepts the code the
    transformer returns its instrumented text. *)
Theorem transformer_without_source_map cv code filename w :
  sourceMapUnavailable w filename →
  transformer cv code filename w
  = (match instrumentSync cv code filename JUndefined with
     | Some out => Return out
     | None => Throw (InstrumentError filename)
     end, w)
  ∧ ∀ out, instrumentSync cv code filename JUndefined = Some out →
           transformer cv code filename w = (Return out, w).
Proof.
  unfold sourceMapUnavailable. intros Hmap.
  assert (transformer cv code filename w
          = (match instrumentSync cv code filename JUndefined with
             | Some out => Return out
             | None => Throw (InstrumentError filename)
             end, w)) as Heq.
  { unfold transformer. unfold_M.
    destruct (fs w !! (filename +:+ ".map")) as [[text|]|]; simpl;
      [rewrite Hmap; simpl|..];
      by destruct (instrumentSync _ _ _ _). }
  split; [exact Heq|]. intros out Hout. by rewrite Heq, Hout.
Qed.

(** *** Reporting with nothing collected *)

(** [setupCoverage] hands back a runner that holds its unhook handle. *)
Lemma setupCoverage_handle this w this' w' :
  setupCoverage this w = (Return this', w') →
  is_Some (unhookRequire this') ∧ coverageVar this' = coverageVar this.
Proof.
  unfold setupCoverage, hookRequire. unfold_M. intros Hrun.
  destruct (options this); simplify_eq/=;
    repeat match type of Hrun with
    | context [match ?x with _ => _ end] => destruct x eqn:?; simplify_eq/=
    end; eauto.
Qed.

(** C4. When [global[coverageVar]] is undefined or has no keys, the
    report step unhooks, logs the message on the error console and
    returns normally; the file system is untouched (no directory, no
    JSON snapshot) and nothing is rendered. *)
Theorem reportCoverage_nothing_collected this handle w :
  unhookRequire this = Some handle →
  (globals w !! coverageVar this = None ∨
   globals w !! coverageVar this = Some []) →
  let w' := emit (EvConsoleError noCoverage_message)
              (set_requireHooks (alter disable handle (requireHooks w)) w) in
  reportCoverage this w = (Return tt, w')
  ∧ fs w' = fs w
  ∧ writes (trace w') = writes (trace w)
  ∧ renders (trace w') = renders (trace w).
Proof.
  intros Hhandle Htable w'. split; [|split; [done|]].
  - unfold reportCoverage, call_unhookRequire. rewrite Hhandle. unfold_M.
    simpl. by destruct Htable as [-> | ->].
  - subst w'. simpl. unfold writes, renders.
    rewrite !omap_app. simpl. by rewrite !app_nil_r.
Qed.

(** *** The report loop *)

Lemma set_globals_id w cv cov :
  globals w !! cv = Some cov → set_globals (<[cv := cov]> (globals w)) w = w.
Proof.
  intros Hcov. destruct w. unfold set_globals. simpl in *. f_equal.
  by apply insert_id.
Qed.

Lemma set_globals_twice w cv cov cov' :
  set_globals (<[cv := cov']> (globals (set_globals (<[cv := cov]> (globals w)) w)))
              (set_globals (<[cv := cov]> (globals w)) w)
  = set_globals (<[cv := cov']> (globals w)) w.
Proof. unfold set_globals. simpl. f_equal. apply insert_insert_eq. Qed.

Lemma synthetic_transformer cv w file fc :
  synthetic cv (fs w) file = Some fc ↔
  ∃ code out, fs w !! file = Some (File code)
              ∧ transformer cv code file w = (Return out, w)
              ∧ fc = zeroStatements out.2.
Proof.
  unfold synthetic, transformer. unfold_M. split.
  - destruct (fs w !! file) as [[code|]|] eqn:Hfile; [|done..].
    intros Hsynth. exists code.
    destruct (fs w !! (file +:+ ".map")) as [[text|]|]; simpl in *;
      [destruct (JSON_parse text); simpl in *|..];
      destruct (instrumentSync _ _ _ _) as [out|]; simplify_eq/=; eauto.
  - intros (code & out & -> & Hrun & ->).
    destruct (fs w !! (file +:+ ".map")) as [[text|]|]; simpl in *;
      [destruct (JSON_parse text); simpl in *|..];
      destruct (instrumentSync _ _ _ _) as [out'|]; by simplify_eq/=.
Qed.

Lemma fillMissing_unfold this w cov file :
  globals w !! coverageVar this = Some cov →
  fillMissing this file w
  = (if negb (bool_decide (is_Some (assoc file cov))) then
       let! code := fs_readFileSync file in
       let! out := transformer (coverageVar this) code file in
       modify (λ w, set_globals
                 (<[coverageVar this := setProp file (zeroStatements out.2) cov]>
                    (globals w)) w)
     else ret tt) w.
Proof.
  intros Hcov. unfold fillMissing, covOf, bind at 1, gets. by rewrite Hcov.
Qed.

Lemma fillMissing_run this w cov file :
  globals w !! coverageVar this = Some cov →
  match assoc file cov with
  | Some _ => fillMissing this file w = (Return tt, w)
  | None =>
      match synthetic (coverageVar this) (fs w) file with
      | Some fc =>
          fillMissing this file w
          = (Return tt,
             set_globals (<[coverageVar this := setProp file fc cov]> (globals w)) w)
      | None => ∃ e, fillMissing this file w = (Throw e, w)
      end
  end.
Proof.
  intros Hcov. rewrite (fillMissing_unfold _ _ _ _ Hcov).
  destruct (assoc file cov) as [fc|] eqn:Hfile.
  { rewrite bool_decide_eq_true_2 by eauto. done. }
  rewrite bool_decide_eq_false_2 by (by intros [? ?]). simpl.
  destruct (synthetic _ _ _) as [fc|] eqn:Hsynth.
  - apply synthetic_transformer in Hsynth as (code & out & Hcode & Hrun & ->).
    unfold bind, fs_readFileSync. rewrite Hcode, Hrun. reflexivity.
  - unfold bind, fs_readFileSync.
    destruct (fs w !! file) as [[code|]|] eqn:Hcode; [|eauto..].
    pose proof (transformer_world (coverageVar this) code file w) as Hw.
    destruct (transformer _ _ _ _) as [[out|e] w1] eqn:Hrun; simpl in Hw; subst w1.
    + assert (synthetic (coverageVar this) (fs w) file
              = Some (zeroStatements out.2)) as Hsome
        by (apply synthetic_transformer; eauto).
      congruence.
    + eauto.
Qed.

Lemma fill_loop this paths : ∀ w cov,
  globals w !! coverageVar this = Some cov →
  match fill (coverageVar this) (fs w) paths cov with
  | Some cov' =>
      forEach paths (fillMissing this) w
      = (Return tt, set_globals (<[coverageVar this := cov']> (globals w)) w)
  | None => ∃ e w', forEach paths (fillMissing this) w = (Throw e, w')
  end.
Proof.
  induction paths as [|file rest IH]; intros w cov Hcov; simpl.
  { unfold ret. by rewrite set_globals_id. }
  pose proof (fillMissing_run this w cov file Hcov) as Hstep.
  destruct (assoc file cov) as [fc|].
  - specialize (IH w cov Hcov). unfold bind. rewrite Hstep.
    destruct (fill _ _ rest cov); [done|].
    destruct IH as (e & w' & ->). eauto.
  - destruct (synthetic _ _ file) as [fc|].
    + set (w1 := set_globals (<[coverageVar this := setProp file fc cov]> (globals w)) w) in *.
      assert (globals w1 !! coverageVar this = Some (setProp file fc cov)) as Hcov1
        by apply lookup_insert_eq.
      specialize (IH w1 _ Hcov1). unfold bind. rewrite Hstep.
      change (fs w1) with (fs w) in IH.
      destruct (fill _ _ rest _) as [cov'|].
      * rewrite IH. subst w1. by rewrite set_globals_twice.
      * destruct IH as (e & w' & ->). eauto.
    + destruct Hstep as [e Hstep]. unfold bind. rewrite Hstep. eauto.
Qed.

Lemma fill_old cv files paths : ∀ cov cov' f fc,
  fill cv files paths cov = Some cov' →
  assoc f cov = Some fc → assoc f cov' = Some fc.
Proof.
  induction paths as [|file rest IH]; intros cov cov' f fc; simpl.
  { by intros [= <-]. }
  destruct (assoc file cov) eqn:Hfile; [by apply IH|].
  destruct (synthetic cv files file) as [fc'|]; [|done].
  intros Hfill Hf. eapply IH; [done|].
  rewrite assoc_setProp_ne; [done|]. congruence.
Qed.

Lemma fill_new cv files paths : ∀ cov cov' f,
  fill cv files paths cov = Some cov' →
  f ∈ paths → assoc f cov = None →
  ∃ fc, synthetic cv files f = Some fc ∧ assoc f cov' = Some fc.
Proof.
  induction paths as [|file rest IH]; intros cov cov' f; simpl.
  { intros _ Hin. by apply elem_of_nil in Hin. }
  intros Hfill Hin Hf.
  destruct (decide (f = file)) as [->|Hne].
  - rewrite Hf in Hfill.
    destruct (synthetic cv files file) as [fc|]; [|done].
    exists fc. split; [done|].
    eapply fill_old; [done|]. apply assoc_setProp_eq.
  - apply elem_of_cons in Hin as [?|Hin]; [done|].
    destruct (assoc file cov) eqn:Hfile; [by eapply IH|].
    destruct (synthetic cv files file) as [fc|]; [|done].
    eapply IH; [done..|]. by rewrite assoc_setProp_ne.
Qed.

Lemma fill_keys cv files paths : ∀ cov cov' k,
  fill cv files paths cov = Some cov' →
  k ∈ keys cov' ↔ k ∈ keys cov ∨ k ∈ paths.
Proof.
  induction paths as [|file rest IH]; intros cov cov' k; simpl.
  { intros [= <-]. rewrite elem_of_nil. tauto. }
  rewrite elem_of_cons.
  destruct (assoc file cov) eqn:Hfile.
  - intros Hfill. rewrite (IH _ _ _ Hfill).
    assert (file ∈ keys cov) by (apply assoc_is_Some; eauto).
    split; [tauto|]. intros [?|[->|?]]; tauto.
  - destruct (synthetic cv files file) as [fc|]; [|done].
    intros Hfill. rewrite (IH _ _ _ Hfill).
    rewrite (setProp_fresh _ _ _ Hfile). unfold keys.
    rewrite fmap_app, elem_of_app. simpl. rewrite list_elem_of_singleton. tauto.
Qed.

Lemma fill_NoDup cv files paths : ∀ cov cov',
  fill cv files paths cov = Some cov' →
  NoDup (keys cov) → NoDup (keys cov').
Proof.
  induction paths as [|file rest IH]; intros cov cov'; simpl.
  { by intros [= <-]. }
  destruct (assoc file cov) eqn:Hfile; [by apply IH|].
  destruct (synthetic cv files file) as [fc|]; [|done].
  intros Hfill Hnd. eapply IH; [done|].
  rewrite (setProp_fresh _ _ _ Hfile). unfold keys. rewrite fmap_app.
  apply NoDup_app. split; [done|]. split.
  - intros k Hk. simpl. rewrite list_elem_of_singleton. intros ->.
    by apply assoc_None in Hfile.
  - simpl. apply NoDup_singleton.
Qed.

Lemma fill_fixed cv files paths cov :
  (∀ f, f ∈ paths → f ∈ keys cov) → fill cv files paths cov = Some cov.
Proof.
  induction paths as [|file rest IH]; intros Hall; simpl; [done|].
  destruct (assoc file cov) eqn:Hfile.
  - apply IH. intros p Hp. apply Hall. by right.
  - apply assoc_None in Hfile. destruct Hfile. apply Hall. by left.
Qed.

(** *** Writing the snapshot and the reports *)

Lemma emits_nil w : emits [] w = w.
Proof. destruct w. unfold emits. simpl. by rewrite app_nil_r. Qed.

Lemma emits_cons e evs w : emits (e :: evs) w = emits evs (emit e w).
Proof. unfold emits, emit. simpl. by rewrite <-app_assoc. Qed.

Lemma forEach_render dir cm types : ∀ w,
  if forallb iReports_known types
  then forEach types (renderReport dir cm) w
       = (Return tt, emits ((λ t, EvRender t dir cm) <$> types) w)
  else ∃ e w', forEach types (renderReport dir cm) w = (Throw e, w').
Proof.
  induction types as [|t types IH]; intros w; simpl.
  { unfold ret. by rewrite emits_nil. }
  assert (renderReport dir cm t w
          = if iReports_known t then (Return tt, emit (EvRender t dir cm) w)
            else (Throw (UnknownReport t), w)) as Hone.
  { unfold renderReport. by destruct (iReports_known t). }
  unfold bind. rewrite Hone. destruct (iReports_known t); simpl.
  - specialize (IH (emit (EvRender t dir cm) w)).
    destruct (forallb iReports_known types).
    + by rewrite IH, emits_cons.
    + destruct IH as (e & w' & ->). eauto.
  - eauto.
Qed.

Lemma bind_Return {A B} (m : M A) (k : A → M B) w b w' :
  bind m k w = (Return b, w') →
  ∃ a w1, m w = (Return a, w1) ∧ k a w1 = (Return b, w').
Proof.
  unfold bind. destruct (m w) as [[a|e] w1]; [eauto | done].
Qed.

Lemma getProp_Return o k w v w' :
  getProp o k w = (Return v, w') → v = prop o k ∧ w' = w.
Proof. destruct o; simpl; unfold ret, throw; by intros [= <- <-]. Qed.

Lemma getProp_object fields k w :
  getProp (JObj fields) k w = (Return (prop (JObj fields) k), w).
Proof. done. Qed.

Lemma path_join_Return a b w p w' :
  path_join a b w = (Return p, w') →
  ∃ x y, a = JStr x ∧ b = JStr y ∧ p = path_join_str x y ∧ w' = w.
Proof.
  destruct a, b; simpl; unfold ret, throw; intros [= <- <-].
  by eexists _, _.
Qed.

Lemma mkDirIfExists_Return dir w w' :
  mkDirIfExists dir w = (Return tt, w') → w' = withDir dir w.
Proof.
  unfold mkDirIfExists, withDir, bind, fs_existsSync, gets, fs_mkdirSync, ret.
  destruct (bool_decide (is_Some (fs w !! dir))) eqn:Hex; simpl.
  - by intros [= <-].
  - destruct (negb (isDir w (path_dirname dir))); [done|].
    destruct (fs w !! dir); [done|]. by intros [= <-].
Qed.

Lemma mkDirIfExists_present dir w :
  is_Some (fs w !! dir) → mkDirIfExists dir w = (Return tt, w).
Proof.
  intros Hdir. unfold mkDirIfExists, bind, fs_existsSync, gets.
  by rewrite bool_decide_eq_true_2.
Qed.

Lemma fs_writeFileSync_run file data w :
  fs_writeFileSync file data w
  = if isDir w file then (Throw (EISDIR file), w)
    else if isDir w (path_dirname file) then (Return tt, withFile file data w)
    else (Throw (pathError w file), w).
Proof.
  unfold fs_writeFileSync, withFile.
  by destruct (isDir w file), (isDir w (path_dirname file)).
Qed.

(** What a completed [writeReports] did. *)
Lemma writeReports_Return this w w' :
  writeReports this w = (Return tt, w') →
  ∃ d coverageMap,
    prop (options this) "relativeCoverageDir" = JStr d
    ∧ transformCoverage (covOf (coverageVar this) w) = Return coverageMap
    ∧ let dir := path_join_str (testsRoot this) d in
      let file := coverageFileOf this dir in
      let cov := covOf (coverageVar this) w in
      let types := reportTypesOf (prop (options this) "reports") in
      isDir (withDir dir w) file = false
      ∧ isDir (withDir dir w) (path_dirname file) = true
      ∧ forallb iReports_known types = true
      ∧ w' = emits ((λ t, EvRender t dir coverageMap) <$> types)
               (withFile file (JSON_stringify cov) (withDir dir w)).
Proof.
  unfold writeReports, coverageFileOf. intros Hrun.
  apply bind_Return in Hrun as (cov & w1 & [= <- <-] & Hrun).
  apply bind_Return in Hrun as (coverageMap & w1 & [= Hmap <-] & Hrun).
  apply bind_Return in Hrun as (rcd & w1 & [-> ->]%getProp_Return & Hrun).
  apply bind_Return in Hrun
    as (dir & w1 & (x & d & [= <-] & Hd & -> & ->)%path_join_Return & Hrun).
  apply bind_Return in Hrun as (pid & w1 & [-> ->]%getProp_Return & Hrun).
  apply bind_Return in Hrun as ([] & w1 & ->%mkDirIfExists_Return & Hrun).
  apply bind_Return in Hrun as ([] & w1 & Hwrite & Hrun).
  apply bind_Return in Hrun as (reports & w2 & [-> ->]%getProp_Return & Hrun).
  exists d, coverageMap. split; [done|]. split; [done|]. simpl.
  rewrite fs_writeFileSync_run in Hwrite.
  destruct (isDir _ _) eqn:Hfile in Hwrite; [done|].
  destruct (isDir _ _) eqn:Hparent in Hwrite; [|done].
  injection Hwrite as <-.
  split; [done|]. split; [done|].
  match type of Hrun with
  | forEach ?types (renderReport ?dir ?cm) ?w0 = _ =>
      pose proof (forEach_render dir cm types w0) as Hrender
  end.
  destruct (forallb iReports_known _).
  - rewrite Hrender in Hrun. by simplify_eq.
  - destruct Hrender as (e & w'' & Hrender). rewrite Hrender in Hrun. done.
Qed.

(** Conversely, when the reporting directory is there. *)
Lemma writeReports_run this w d coverageMap :
  prop (options this) "relativeCoverageDir" = JStr d →
  transformCoverage (covOf (coverageVar this) w) = Return coverageMap →
  let dir := path_join_str (testsRoot this) d in
  let file := coverageFileOf this dir in
  let cov := covOf (coverageVar this) w in
  let types := reportTypesOf (prop (options this) "reports") in
  is_Some (fs w !! dir) →
  isDir w file = false →
  isDir w (path_dirname file) = true →
  forallb iReports_known types = true →
  writeReports this w
  = (Return tt,
     emits ((λ t, EvRender t dir coverageMap) <$> types)
       (withFile file (JSON_stringify cov) w)).
Proof.
  intros Hd Hmap.
  assert (∃ fields, options this = JObj fields) as [fields Hopts].
  { destruct (options this); try done. eauto. }
  unfold writeReports, coverageFileOf. revert Hd. rewrite Hopts.
  intros Hd Hdir Hfile Hparent Hknown.
  unfold bind at 1, gets.
  unfold bind at 1, external. rewrite Hmap.
  unfold bind at 1. rewrite getProp_object, Hd. unfold bind at 1. simpl path_join.
  unfold ret at 1. unfold bind at 1. rewrite getProp_object.
  unfold bind at 1. rewrite (mkDirIfExists_present _ _ Hdir).
  unfold bind at 1.
  rewrite fs_writeFileSync_run, Hfile, Hparent.
  unfold bind at 1. rewrite getProp_object.
  match goal with
  | |- forEach ?types (renderReport ?dir ?cm) ?w0 = _ =>
      pose proof (forEach_render dir cm types w0) as Hrender
  end.
  rewrite Hknown in Hrender. exact Hrender.
Qed.

(** What a completed [reportCoverage] over a non-empty table did: it
    disabled its hook, completed the table as [fill] says, and wrote the
    reports from the completed table. *)
Lemma reportCoverage_Return this w w' first rest :
  globals w !! coverageVar this = Some (first :: rest) →
  reportCoverage this w = (Return tt, w') →
  ∃ handle cov',
    unhookRequire this = Some handle
    ∧ fill (coverageVar this) (fs w) (fileMap this) (first :: rest) = Some cov'
    ∧ writeReports this
        (set_globals (<[coverageVar this := cov']> (globals w))
           (set_requireHooks (alter disable handle (requireHooks w)) w))
      = (Return tt, w').
Proof.
  intros Hcov Hrun. unfold reportCoverage, call_unhookRequire in Hrun.
  destruct (unhookRequire this) as [handle|]; [|done].
  exists handle.
  apply bind_Return in Hrun as ([] & w0 & [= <-] & Hrun).
  apply bind_Return in Hrun as (table & w0 & [= <- <-] & Hrun).
  simpl in Hrun. rewrite Hcov in Hrun.
  apply bind_Return in Hrun as ([] & w1 & Hloop & Hrun).
  set (w0 := set_requireHooks _ w) in *.
  pose proof (fill_loop this (fileMap this) w0 (first :: rest) Hcov) as Hfill.
  change (fs w0) with (fs w) in Hfill.
  destruct (fill _ _ _ _) as [cov'|].
  - exists cov'. rewrite Hloop in Hfill. by simplify_eq.
  - destruct Hfill as (e & w'' & Hfill). rewrite Hloop in Hfill. done.
Qed.

Lemma reportCoverage_nonempty this handle w cov :
  unhookRequire this = Some handle →
  globals w !! coverageVar this = Some cov →
  cov ≠ [] →
  reportCoverage this w
  = emitReports this (set_requireHooks (alter disable handle (requireHooks w)) w).
Proof.
  intros Hhandle Hcov Hne. unfold reportCoverage, call_unhookRequire.
  rewrite Hhandle. unfold bind at 1, modify. unfold bind at 1, gets.
  simpl. rewrite Hcov. by destruct cov.
Qed.

Lemma fill_nonempty cv files paths first rest cov' :
  fill cv files paths (first :: rest) = Some cov' → cov' ≠ [].
Proof.
  intros Hfill ->.
  assert (first.1 ∈ keys ([] : CounterTable)) as Hin.
  { apply (fill_keys _ _ _ _ _ _ Hfill). left. unfold keys. simpl. by left. }
  by apply elem_of_nil in Hin.
Qed.

Lemma writes_app t1 t2 : writes (t1 ++ t2) = writes t1 ++ writes t2.
Proof. apply omap_app. Qed.

Lemma renders_app t1 t2 : renders (t1 ++ t2) = renders t1 ++ renders t2.
Proof. apply omap_app. Qed.

Lemma writes_render dir cm types :
  writes ((λ t, EvRender t dir cm) <$> types) = [].
Proof. by induction types. Qed.

Lemma renders_render dir cm types :
  renders ((λ t, EvRender t dir cm) <$> types) = types.
Proof. induction types; simpl; [done|]. by f_equal. Qed.

Lemma withDir_trace dir w :
  writes (trace (withDir dir w)) = writes (trace w)
  ∧ renders (trace (withDir dir w)) = renders (trace w).
Proof.
  unfold withDir. destruct (bool_decide _); [done|]. simpl.
  rewrite writes_app, renders_app. simpl. by rewrite !app_nil_r.
Qed.

Lemma withDir_globals dir w : globals (withDir dir w) = globals w.
Proof. unfold withDir. by destruct (bool_decide _). Qed.

Lemma withDir_present dir w : is_Some (fs (withDir dir w) !! dir).
Proof.
  unfold withDir. destruct (bool_decide _) eqn:Hex.
  - by apply bool_decide_eq_true in Hex.
  - simpl. rewrite lookup_insert_eq. eauto.
Qed.

Lemma writeReports_globals this w w' :
  writeReports this w = (Return tt, w') → globals w' = globals w.
Proof.
  intros (d & coverageMap & _ & _ & _ & _ & _ & ->)%writeReports_Return. simpl.
  apply withDir_globals.
Qed.

(** The loop completes when every path it has to add can be read and
    instrumented. *)
Lemma fill_total cv files paths : ∀ cov,
  (∀ f, f ∈ paths → f ∉ keys cov → is_Some (synthetic cv files f)) →
  is_Some (fill cv files paths cov).
Proof.
  induction paths as [|file rest IH]; intros cov Hall; simpl; [eauto|].
  destruct (assoc file cov) eqn:Hfile.
  - apply IH. intros p Hp. apply Hall. by right.
  - destruct (Hall file) as [fc Hfc]; [by left | by apply assoc_None |].
    rewrite Hfc. apply IH. intros p Hp Hout. apply Hall; [by right|].
    intros Hin. apply Hout. rewrite keys_setProp.
    destruct (bool_decide _); [done|]. apply elem_of_app. by left.
Qed.

(** The report step runs to its end when the loop does, the source-map
    store translates the completed table, the reporting directory is
    there, the snapshot can be written and every report type is known to
    the renderer. *)
Lemma reportCoverage_completes this handle w first rest cov' d coverageMap :
  unhookRequire this = Some handle →
  globals w !! coverageVar this = Some (first :: rest) →
  fill (coverageVar this) (fs w) (fileMap this) (first :: rest) = Some cov' →
  transformCoverage cov' = Return coverageMap →
  prop (options this) "relativeCoverageDir" = JStr d →
  let dir := path_join_str (testsRoot this) d in
  let file := coverageFileOf this dir in
  is_Some (fs w !! dir) →
  isDir w file = false →
  isDir w (path_dirname file) = true →
  forallb iReports_known (reportTypesOf (prop (options this) "reports")) = true →
  ∃ w', reportCoverage this w = (Return tt, w')
        ∧ globals w' !! coverageVar this = Some cov'.
Proof.
  intros Hhandle Hcov Hfill Hmap Hd dir file Hdir Hfile Hparent Hknown.
  rewrite (reportCoverage_nonempty _ _ _ _ Hhandle Hcov) by done.
  set (w0 := set_requireHooks _ w).
  pose proof (fill_loop this (fileMap this) w0 _ Hcov) as Hloop.
  change (fs w0) with (fs w) in Hloop. rewrite Hfill in Hloop.
  unfold emitReports, bind. rewrite Hloop.
  set (w1 := set_globals _ w0).
  assert (transformCoverage (covOf (coverageVar this) w1) = Return coverageMap)
    as Hmap1 by (unfold covOf; simpl; by rewrite lookup_insert_eq).
  pose proof (writeReports_run this w1 d coverageMap Hd Hmap1 Hdir Hfile Hparent Hknown)
    as Hwrite.
  simpl in Hwrite. rewrite Hwrite. eexists. split; [done|].
  simpl. apply lookup_insert_eq.
Qed.

(** C2, as amended. In a report step that runs to its end over a
    non-empty counter table, every path of [matchFn.files] that has no
    entry in the table is read from disk and put through the transformer,
    and a record is stored in the table under that path: the coverage
    record the instrumenter then holds, with every one of its statement
    counters kept and set to zero, and its path, its function and branch
    counters and its location maps as the instrumenter made them. *)
Theorem reportCoverage_synthetic_zero this w w' first rest file :
  globals w !! coverageVar this = Some (first :: rest) →
  file ∈ fileMap this →
  assoc file (first :: rest) = None →
  reportCoverage this w = (Return tt, w') →
  ∃ code out fc,
    fs w !! file = Some (File code)
    ∧ transformer (coverageVar this) code file w = (Return out, w)
    ∧ assoc file (covOf (coverageVar this) w') = Some fc
    ∧ (∀ key, fc_s fc !! key = (λ _, 0) <$> fc_s out.2 !! key)
    ∧ fc_path fc = fc_path out.2
    ∧ fc_f fc = fc_f out.2
    ∧ fc_b fc = fc_b out.2
    ∧ fc_meta fc = fc_meta out.2.
Proof.
  intros Hcov Hin Hfresh Hrun.
  destruct (reportCoverage_Return _ _ _ _ _ Hcov Hrun)
    as (handle & cov' & _ & Hfill & Hwrite).
  destruct (fill_new _ _ _ _ _ _ Hfill Hin Hfresh) as (fc & Hsynth & Hfc).
  apply synthetic_transformer in Hsynth as (code & out & Hcode & Htrans & ->).
  exists code, out, (zeroStatements out.2).
  split; [done|]. split; [done|]. split.
  - unfold covOf. rewrite (writeReports_globals _ _ _ Hwrite). simpl.
    by rewrite lookup_insert_eq.
  - split; [|done]. intros key. simpl. apply lookup_fmap.
Qed.

(** C5, as amended. A report step that runs to its end over a non-empty
    counter table renders one report per element of [options.reports]
    when that is an array, in order (so none for the empty array), and
    exactly one, of type lcovonly, when it is anything else. *)
Theorem reportCoverage_report_types this w w' first rest :
  globals w !! coverageVar this = Some (first :: rest) →
  reportCoverage this w = (Return tt, w') →
  renders (trace w')
  = renders (trace w)
    ++ match prop (options this) "reports" with
       | JArr items => items
       | _ => [JStr "lcovonly"]
       end.
Proof.
  intros Hcov Hrun.
  destruct (reportCoverage_Return _ _ _ _ _ Hcov Hrun)
    as (handle & cov' & _ & _ & Hwrite).
  apply writeReports_Return in Hwrite as (d & coverageMap & _ & _ & _ & _ & _ & ->).
  simpl. rewrite !renders_app, renders_render. simpl. rewrite app_nil_r.
  by rewrite (proj2 (withDir_trace _ _)).
Qed.

(** C7. After a report step that ran to its end, a second report step of
    the same runner runs to its end as well, writes the same bytes to the
    same JSON path as the first, and leaves the file system as the first
    left it. *)
Theorem reportCoverage_twice this w w1 first rest :
  globals w !! coverageVar this = Some (first :: rest) →
  reportCoverage this w = (Return tt, w1) →
  ∃ file data w2,
    writes (trace w1) = writes (trace w) ++ [(file, data)]
    ∧ fs w1 !! file = Some (File data)
    ∧ reportCoverage this w1 = (Return tt, w2)
    ∧ writes (trace w2) = writes (trace w1) ++ [(file, data)]
    ∧ fs w2 = fs w1.
Proof.
  intros Hcov Hrun.
  destruct (reportCoverage_Return _ _ _ _ _ Hcov Hrun)
    as (handle & cov' & Hhandle & Hfill & Hwrite).
  apply writeReports_Return in Hwrite
    as (d & coverageMap & Hd & Hmap & Hfile & Hparent & Hknown & Hw1).
  set (dir := path_join_str (testsRoot this) d) in *.
  set (file := coverageFileOf this dir) in *.
  set (w0 := set_globals _ _) in *.
  assert (covOf (coverageVar this) w0 = cov') as Hcov0
    by (unfold covOf; simpl; by rewrite lookup_insert_eq).
  rewrite Hcov0 in Hw1, Hmap.
  set (data := JSON_stringify cov') in *.
  set (types := reportTypesOf _) in *.
  assert (globals w1 !! coverageVar this = Some cov') as Hcov1.
  { rewrite Hw1. simpl. rewrite withDir_globals. simpl. apply lookup_insert_eq. }
  assert (fs w1 = <[file := File data]> (fs (withDir dir w0))) as Hfs1
    by (by rewrite Hw1).
  assert (path_dirname file ≠ file) as Hne by congruence.
  exists file, data.
  (* the second run *)
  set (w1' := set_requireHooks (alter disable handle (requireHooks w1)) w1).
  assert (reportCoverage this w1
          = (Return tt,
             emits ((λ t, EvRender t dir coverageMap) <$> types)
               (withFile file data w1'))) as Hsecond.
  { assert (globals w1' !! coverageVar this = Some cov') as Hcov1' by exact Hcov1.
    rewrite (reportCoverage_nonempty _ _ _ _ Hhandle Hcov1
               (fill_nonempty _ _ _ _ _ _ Hfill)).
    fold w1'. unfold emitReports, bind.
    assert (fill (coverageVar this) (fs w1') (fileMap this) cov' = Some cov')
      as Hfixed.
    { apply fill_fixed. intros p Hp.
      apply (fill_keys _ _ _ _ _ _ Hfill). by right. }
    pose proof (fill_loop this (fileMap this) w1' cov' Hcov1') as Hloop.
    rewrite Hfixed in Hloop. rewrite Hloop.
    rewrite (set_globals_id _ _ _ Hcov1').
    assert (covOf (coverageVar this) w1' = cov') as Hcov1''
      by (unfold covOf; by rewrite Hcov1').
    assert (transformCoverage (covOf (coverageVar this) w1') = Return coverageMap)
      as Hmap1 by (by rewrite Hcov1'').
    pose proof (writeReports_run this w1' d coverageMap Hd Hmap1) as Hwr.
    simpl in Hwr. rewrite Hcov1'' in Hwr. apply Hwr.
    - change (fs w1') with (fs w1). rewrite Hfs1.
      fold dir. rewrite lookup_insert.
      destruct (decide (file = dir)); [eauto|].
      apply withDir_present.
    - unfold isDir. change (fs w1') with (fs w1). rewrite Hfs1.
      fold dir file. by rewrite lookup_insert_eq.
    - unfold isDir. change (fs w1') with (fs w1). rewrite Hfs1.
      fold dir file. rewrite lookup_insert_ne by done. exact Hparent.
    - exact Hknown. }
  eexists. split; [|split; [|split; [exact Hsecond|split]]].
  - rewrite Hw1. simpl. rewrite !writes_app, writes_render. simpl.
    rewrite (proj1 (withDir_trace _ _)). simpl. by rewrite app_nil_r.
  - rewrite Hfs1. apply lookup_insert_eq.
  - simpl. by rewrite !writes_app, writes_render, app_nil_r.
  - simpl. rewrite Hfs1. apply insert_insert_eq.
Qed.

(** *** Construction and setup *)

Lemma append_cons a s t : String a s +:+ t = String a (s +:+ t).
Proof. done. Qed.

Lemma length_append s t :
  String.length (s +:+ t) = (String.length s + String.length t)%nat.
Proof. induction s; [done|]. rewrite append_cons. simpl. by f_equal. Qed.

Lemma append_inj_r s1 s2 t : s1 +:+ t = s2 +:+ t → s1 = s2.
Proof.
  revert s2. induction s1 as [|a s1 IH]; intros [|b s2] Heq.
  - done.
  - apply (f_equal String.length) in Heq.
    rewrite !length_append in Heq. simpl in Heq. lia.
  - apply (f_equal String.length) in Heq.
    rewrite !length_append in Heq. simpl in Heq. lia.
  - rewrite !append_cons in Heq. injection Heq as -> Heq. f_equal. by apply IH.
Qed.

Lemma coverageVarAt_inj t1 t2 : coverageVarAt t1 = coverageVarAt t2 ↔ t1 = t2.
Proof.
  split; [|by intros ->]. unfold coverageVarAt. intros Heq.
  apply String.app_inj in Heq. apply append_inj_r in Heq.
  by apply (inj pretty) in Heq.
Qed.

Lemma new_CoverageRunner_Return opts root clb w this w' :
  new_CoverageRunner opts root clb w = (Return this, w') →
  this = mkRunner opts root (coverageVarAt (clock w)) [] None
  ∧ globals w' = globals w ∧ clock w' = clock w ∧ fs w' = fs w
  ∧ requireHooks w' = requireHooks w ∧ exitListeners w' = exitListeners w.
Proof.
  unfold new_CoverageRunner. intros Hrun.
  apply bind_Return in Hrun as (now & w1 & [= <- <-] & Hrun).
  apply bind_Return in Hrun as (rsp & w1 & [-> ->]%getProp_Return & Hrun).
  destruct (negb (truthy _)).
  - apply bind_Return in Hrun as (? & w1 & Hcall & [= <- <-]).
    unfold call, bind, modify, ret in Hcall. by simplify_eq.
  - by injection Hrun as <- <-.
Qed.

Lemma addSourceFiles_run sourceRoot srcFiles : ∀ files w,
  addSourceFiles sourceRoot files srcFiles w
  = (Return (foldl (λ acc file, addKey (fullPathOf sourceRoot file) acc) files srcFiles),
     emits ((λ file, EvDecache (fullPathOf sourceRoot file)) <$> srcFiles) w).
Proof.
  induction srcFiles as [|file rest IH]; intros files w; simpl.
  { unfold ret. by rewrite emits_nil. }
  unfold bind at 1, addSourceFile, bind, modify, ret. fold (fullPathOf sourceRoot file).
  by rewrite IH, emits_cons.
Qed.

(** The object [fileMap] that [setupCoverage] builds under [sourceRoot]. *)
Lemma setupCoverage_Return this w this' w' :
  setupCoverage this w = (Return this', w') →
  ∃ rsp srcFiles,
    prop (options this) "relativeSourcePath" = JStr rsp
    ∧ let sourceRoot := path_join_str (testsRoot this) rsp in
      let files :=
        foldl (λ acc file, addKey (fullPathOf sourceRoot file) acc) [] srcFiles in
      glob_sync (fs w) (prop (options this) "ignorePatterns") sourceRoot
      = Return srcFiles
      ∧ this' = mkRunner (options this) (testsRoot this) (coverageVar this) files
                (Some (length (requireHooks w)))
      ∧ w' = set_exitListeners (exitListeners w ++ [this'])
               (set_globals (<[coverageVar this := []]> (globals w))
                  (set_requireHooks
                     (requireHooks w ++ [mkHook files (coverageVar this) true])
                     (emits ((λ file, EvDecache (fullPathOf sourceRoot file))
                               <$> srcFiles) w))).
Proof.
  unfold setupCoverage. intros Hrun.
  apply bind_Return in Hrun as (rsp & w1 & [-> ->]%getProp_Return & Hrun).
  apply bind_Return in Hrun
    as (root & w1 & (x & y & [= <-] & Hrsp & -> & ->)%path_join_Return & Hrun).
  apply bind_Return in Hrun as (ign & w1 & [-> ->]%getProp_Return & Hrun).
  apply bind_Return in Hrun as (disk & w1 & [= <- <-] & Hrun).
  apply bind_Return in Hrun as (srcFiles & w1 & [= Hglob <-] & Hrun).
  apply bind_Return in Hrun as (files & w1 & Hadd & Hrun).
  rewrite addSourceFiles_run in Hadd. injection Hadd as <- <-.
  apply bind_Return in Hrun as (handle & w1 & Hhook & Hrun).
  unfold hookRequire, bind, gets, modify, ret in Hhook. injection Hhook as <- <-.
  unfold bind, modify, ret in Hrun. injection Hrun as <- <-.
  exists y, srcFiles. by split.
Qed.

(** C6, as amended. The key of a run's counter table is the text
    [$$cov_<t>$$] for the clock reading [t] at the construction of its
    runner; [setupCoverage] stores an empty table under that key and
    leaves the tables under every other key alone, as does the code
    instrumented for that key when it runs; and two keys coincide exactly
    when the two clock readings do. *)
Theorem counter_table_key opts root clb w this w1 this' w2 :
  new_CoverageRunner opts root clb w = (Return this, w1) →
  setupCoverage this w1 = (Return this', w2) →
  coverageVar this' = coverageVarAt (clock w)
  ∧ globals w2 !! coverageVarAt (clock w) = Some []
  ∧ (∀ key, key ≠ coverageVarAt (clock w) → globals w2 !! key = globals w !! key)
  ∧ (∀ filename fc w3 key,
       key ≠ coverageVarAt (clock w) →
       globals (runInstrumentedModule (coverageVar this') filename fc w3).2 !! key
       = globals w3 !! key)
  ∧ (∀ t, coverageVarAt t = coverageVarAt (clock w) ↔ t = clock w).
Proof.
  intros (-> & Hglobals & _)%new_CoverageRunner_Return
         (rsp & srcFiles & _ & _ & -> & ->)%setupCoverage_Return.
  simpl. rewrite Hglobals. split; [done|]. split; [|split; [|split]].
  - apply lookup_insert_eq.
  - intros key Hkey. by apply lookup_insert_ne.
  - intros filename fc w3 key Hkey. simpl. by apply lookup_insert_ne.
  - intros t. apply coverageVarAt_inj.
Qed.

(** *** Loading modules through the hooks *)

Section CaseSensitive.
Hypothesis Hplatform : os_platform ≠ "win32".
Variable cv : string.
Variable paths : list string.

Lemma matchFn_exact files file : matchFn files file = bool_decide (file ∈ files).
Proof.
  unfold matchFn. apply String.eqb_neq in Hplatform. by rewrite Hplatform.
Qed.

Lemma applyHook_within filename code h w :
  (hk_coverageVar h = cv → ∀ f, f ∈ hk_files h → f ∈ paths) →
  tableWithin cv paths w →
  ∃ w', applyHook filename code h w = (Return tt, w')
        ∧ requireHooks w' = requireHooks w
        ∧ tableWithin cv paths w'.
Proof.
  intros Hhook Htable. unfold applyHook. rewrite matchFn_exact.
  destruct (hk_enabled h); simpl; [|by exists w].
  destruct (bool_decide_reflect (filename ∈ hk_files h)) as [Hin|]; [|by exists w].
  unfold try_catch, bind.
  pose proof (transformer_world (hk_coverageVar h) code filename w) as Hw.
  destruct (transformer _ _ _ _) as [[out|e] w1]; simpl in Hw; subst w1;
    [|by exists w].
  unfold runInstrumentedModule, modify. eexists. split; [done|]. split; [done|].
  destruct Htable as (cov & Hcov & Hnodup & Hkeys).
  destruct (decide (hk_coverageVar h = cv)) as [Heq|Hne].
  - subst cv. eexists. split; [apply lookup_insert_eq|].
    unfold covOf. rewrite Hcov. simpl. rewrite keys_setProp.
    destruct (bool_decide_reflect (filename ∈ keys cov)); [done|]. split.
    + apply NoDup_app. split; [done|]. split; [|apply NoDup_singleton].
      intros k Hk. rewrite list_elem_of_singleton. by intros ->.
    + intros k [Hk | ->%list_elem_of_singleton]%elem_of_app; auto.
  - exists cov. split; [|done]. simpl. by rewrite lookup_insert_ne.
Qed.

Lemma applyHooks_within filename code hooks : ∀ w,
  hooksWithin cv paths hooks →
  tableWithin cv paths w →
  ∃ w', forEach hooks (applyHook filename code) w = (Return tt, w')
        ∧ requireHooks w' = requireHooks w
        ∧ tableWithin cv paths w'.
Proof.
  induction hooks as [|h hooks IH]; intros w Hhooks Htable; simpl.
  { by exists w. }
  destruct (applyHook_within filename code h w) as (w1 & Hrun & Hsame & Htable1);
    [intros; eapply Hhooks; eauto; by left | done |].
  destruct (IH w1) as (w2 & Hrest & Hsame2 & Htable2);
    [intros h' Hh'; apply Hhooks; by right | done |].
  exists w2. unfold bind. rewrite Hrun. split; [done|]. split; [congruence|done].
Qed.

Lemma requireFile_within filename w res w' :
  hooksWithin cv paths (requireHooks w) →
  tableWithin cv paths w →
  requireFile filename w = (res, w') →
  requireHooks w' = requireHooks w ∧ tableWithin cv paths w'.
Proof.
  intros Hhooks Htable. unfold requireFile, bind at 1, fs_readFileSync.
  destruct (fs w !! filename) as [[code|]|]; try by intros [= <- <-].
  unfold bind, gets.
  destruct (applyHooks_within filename code (requireHooks w) w Hhooks Htable)
    as (w1 & -> & Hsame & Htable1).
  by intros [= <- <-].
Qed.

Lemma loads_within loads : ∀ w res w',
  hooksWithin cv paths (requireHooks w) →
  tableWithin cv paths w →
  forEach loads requireFile w = (res, w') →
  tableWithin cv paths w'.
Proof.
  induction loads as [|filename loads IH]; intros w res w' Hhooks Htable; simpl.
  { by intros [= <- <-]. }
  unfold bind. destruct (requireFile filename w) as [[[]|e] w1] eqn:Hload.
  - destruct (requireFile_within _ _ _ _ Hhooks Htable Hload) as [Hsame Htable1].
    apply IH; [by rewrite Hsame | done].
  - destruct (requireFile_within _ _ _ _ Hhooks Htable Hload) as [Hsame Htable1].
    by intros [= <- <-].
Qed.

End CaseSensitive.

(** X16. On a platform other than win32, the table a completed report step
    leaves has exactly the paths of [matchFn.files] as its keys, each
    once, whatever modules the test run loaded in between, provided no
    hook installed earlier counts into the same coverage variable. *)
Lemma coverage_map_exact this0 w0 this w1 loads res w2 w3 :
  os_platform ≠ "win32" →
  (∀ h, h ∈ requireHooks w0 → hk_coverageVar h ≠ coverageVar this0) →
  setupCoverage this0 w0 = (Return this, w1) →
  forEach loads requireFile w1 = (res, w2) →
  globals w2 !! coverageVar this ≠ Some [] →
  reportCoverage this w2 = (Return tt, w3) →
  NoDup (keys (covOf (coverageVar this) w3))
  ∧ ∀ k, k ∈ keys (covOf (coverageVar this) w3) ↔ k ∈ fileMap this.
Proof.
  intros Hplatform Hfresh
    (rsp & srcFiles & _ & _ & Hthis & Hw1)%setupCoverage_Return Hloads.
  assert (hooksWithin (coverageVar this) (fileMap this) (requireHooks w1)) as Hhooks.
  { rewrite Hw1, Hthis. simpl. intros h Hh Hcv f Hf.
    apply elem_of_app in Hh as [Hh | ->%list_elem_of_singleton]; [|done].
    by destruct (Hfresh h Hh). }
  assert (tableWithin (coverageVar this) (fileMap this) w1) as Htable.
  { exists []. rewrite Hw1, Hthis. simpl. rewrite lookup_insert_eq.
    split; [done|]. split; [apply NoDup_nil_2 | by intros k ?%elem_of_nil]. }
  destruct (loads_within Hplatform _ _ _ _ _ _ Hhooks Htable Hloads)
    as (cov & Hcov & Hnodup & Hkeys).
  intros Hnonempty Hreport.
  destruct cov as [|first rest]; [done|].
  destruct (reportCoverage_Return _ _ _ _ _ Hcov Hreport)
    as (handle & cov' & _ & Hfill & Hwrite).
  unfold covOf. rewrite (writeReports_globals _ _ _ Hwrite). simpl.
  rewrite lookup_insert_eq. simpl. split.
  - by eapply fill_NoDup.
  - intros k. rewrite (fill_keys _ _ _ _ _ _ Hfill). split; [|tauto].
    intros [Hk|Hk]; auto.
Qed.

End Properties.

(** ** Concrete runs *)

Section Runs.
Import Demo.

(** [run] before [configure], on the demo project. *)
Lemma run_unconfigured_throws_witness :
  let w := moduleLoaded (project "plain") 1000 in
  testOptions w = JUndefined
  ∧ ∃ msg, run (Ext := linux) "/p" 1%nat w = (Throw (TypeError msg), w).
Proof.
  split; [reflexivity|].
  apply (run_unconfigured_throws (Ext := linux)). reflexivity.
Defined.

(** [run] with a configuration whose [enabled] flag is false. *)
Lemma run_coverage_off_witness :
  let w := boot (project "disabled") 1000 in
  let w1 := set_pendingGlob (pendingGlob w ++ [("/p", 1%nat)]) w in
  run (Ext := linux) "/p" 1%nat w = (Return tt, w1)
  ∧ ∀ t error files,
      frame w (globCallback (Ext := linux) "/p" 1%nat t error files w1).2.
Proof.
  apply (run_coverage_off (Ext := linux) "/p" 1%nat
           (boot (project "disabled") 1000)
           [("coverConfig", JStr "cover.json")] "cover.json").
  - reflexivity.
  - reflexivity.
  - right. exists "disabled", [("enabled", JBool false)].
    split; [vm_compute; reflexivity|]. split; reflexivity.
Defined.

(** [run] with [enabled] true and no [relativeSourcePath]. *)
Lemma run_missing_relativeSourcePath_witness :
  let w := boot (project "no-source") 1000 in
  run (Ext := linux) "/p" 1%nat w
  = (Throw (TypeError "Path must be a string"),
     emit (EvCallback 1%nat (ErrVal (JStr relativeSourcePath_error)) JUndefined) w).
Proof.
  apply (run_missing_relativeSourcePath (Ext := linux) "/p" 1%nat
           (boot (project "no-source") 1000)
           [("coverConfig", JStr "cover.json")] "cover.json" "no-source"
           [("enabled", JBool true)]).
  - reflexivity.
  - reflexivity.
  - vm_compute. reflexivity.
  - reflexivity.
  - reflexivity.
  - reflexivity.
Defined.

(** The transformer on a file that has no [.map] next to it. *)
Lemma transformer_without_source_map_witness :
  let w := boot (project "plain") 1000 in
  sourceMapUnavailable (H := linux) w "/p/src/a.js"
  ∧ transformer (Ext := linux) "$$cov_1000$$" "a" "/p/src/a.js" w
    = (Return ("$$cov_1000$$:a",
               mkFileCoverage "/p/src/a.js" {["0" := 1; "1" := 0]} ∅ ∅ "a"), w).
Proof.
  assert (sourceMapUnavailable (H := linux) (boot (project "plain") 1000)
            "/p/src/a.js") as Hmap by (vm_compute; exact I).
  split; [exact Hmap|].
  apply (proj2 (transformer_without_source_map (Ext := linux)
                  "$$cov_1000$$" "a" "/p/src/a.js" _ Hmap)).
  reflexivity.
Defined.

(** The report step of a run whose tests loaded no source file. *)
Lemma reportCoverage_nothing_collected_witness :
  let w := session linux (project "plain") "/p" [] in
  globals w !! "$$cov_1000$$" = Some []
  ∧ (reportCoverage (Ext := linux) (runnerOf w) w).1 = Return tt
  ∧ fs (reportCoverage (Ext := linux) (runnerOf w) w).2 = fs w.
Proof.
  set (w := session linux (project "plain") "/p" []).
  assert (globals w !! "$$cov_1000$$" = Some []) as Htable
    by (vm_compute; reflexivity).
  destruct (reportCoverage_nothing_collected (Ext := linux) (runnerOf w) 0%nat w)
    as (Hrun & Hfs & _).
  - vm_compute. reflexivity.
  - right. exact Htable.
  - split; [exact Htable|]. rewrite Hrun. split; [reflexivity | exact Hfs].
Defined.

(** The report step after tests that loaded [a.js] and not [b.js]:
    [b.js] gets the record the instrumenter made for it, with its
    statement counters kept and set to zero. *)
Lemma reportCoverage_synthetic_zero_witness :
  let w := session linux (project "plain") "/p" ["/p/src/a.js"] in
  let this := runnerOf w in
  let w' := (reportCoverage (Ext := linux) this w).2 in
  assoc "/p/src/b.js" (covOf "$$cov_1000$$" w) = None
  ∧ ∃ code out fc,
      fs w !! "/p/src/b.js" = Some (File code)
      ∧ transformer (Ext := linux) (coverageVar this) code "/p/src/b.js" w
        = (Return out, w)
      ∧ assoc "/p/src/b.js" (covOf (coverageVar this) w') = Some fc
      ∧ (∀ key, fc_s fc !! key = (λ _, 0) <$> fc_s out.2 !! key)
      ∧ fc_path fc = fc_path out.2
      ∧ fc_f fc = fc_f out.2
      ∧ fc_b fc = fc_b out.2
      ∧ fc_meta fc = fc_meta out.2.
Proof.
  set (w := session linux (project "plain") "/p" ["/p/src/a.js"]).
  split; [vm_compute; reflexivity|].
  eapply (reportCoverage_synthetic_zero (Ext := linux) (runnerOf w) w).
  - vm_compute. reflexivity.
  - vm_compute. right. left.
  - vm_compute. reflexivity.
  - vm_compute. reflexivity.
Defined.

(** C2, the counterexample. After a test run that loaded no source file
    the counter table is the empty object; [b.js] is in [matchFn.files]
    and has no entry; the report step returns without an exception, and
    the table still has no entry for [b.js], nor was anything written. *)
Lemma reportCoverage_empty_table_adds_nothing :
  let w := session linux (project "plain") "/p" [] in
  let this := runnerOf w in
  let out := reportCoverage (Ext := linux) this w in
  "/p/src/b.js" ∈ fileMap this
  ∧ globals w !! coverageVar this = Some []
  ∧ assoc "/p/src/b.js" (covOf (coverageVar this) w) = None
  ∧ out.1 = Return tt
  ∧ assoc "/p/src/b.js" (covOf (coverageVar this) out.2) = None
  ∧ writes (trace out.2) = [].
Proof.
  vm_compute. split; [right; left|]. repeat split; reflexivity.
Qed.

(** The report types of a completed report step: two configured. *)
Lemma reportCoverage_report_types_witness :
  let w := session linux (project "pid-two") "/p" ["/p/src/a.js"] in
  renders (trace (reportCoverage (Ext := linux) (runnerOf w) w).2)
  = [JStr "lcovonly"; JStr "html"].
Proof.
  set (w := session linux (project "pid-two") "/p" ["/p/src/a.js"]).
  eapply (reportCoverage_report_types (Ext := linux) (runnerOf w) w).
  - vm_compute. reflexivity.
  - vm_compute. reflexivity.
Defined.

(** C5, the counterexample. With [reports: []] the report step runs to
    its end, writes the JSON snapshot, and renders no report at all, not
    the single lcovonly report the claim promises for an empty list. *)
Lemma reportCoverage_empty_list_renders_nothing :
  let w := session linux (project "pid-empty") "/p" ["/p/src/a.js"] in
  let out := reportCoverage (Ext := linux) (runnerOf w) w in
  prop (options (runnerOf w)) "reports" = JArr []
  ∧ out.1 = Return tt
  ∧ writes (trace out.2)
    = [("/p/coverage/coverage-4242.json", "/p/src/a.js=3;/p/src/b.js=0")]
  ∧ renders (trace out.2) = []
  ∧ renders (trace out.2) ≠ [JStr "lcovonly"].
Proof. vm_compute. repeat split; done. Qed.

(** Two emissions in a row write the same snapshot. *)
Lemma reportCoverage_twice_witness :
  let w := session linux (project "plain") "/p" ["/p/src/a.js"] in
  let w1 := (reportCoverage (Ext := linux) (runnerOf w) w).2 in
  ∃ file data w2,
    writes (trace w1) = writes (trace w) ++ [(file, data)]
    ∧ fs w1 !! file = Some (File data)
    ∧ reportCoverage (Ext := linux) (runnerOf w) w1 = (Return tt, w2)
    ∧ writes (trace w2) = writes (trace w1) ++ [(file, data)]
    ∧ fs w2 = fs w1.
Proof.
  set (w := session linux (project "plain") "/p" ["/p/src/a.js"]).
  eapply (reportCoverage_twice (Ext := linux) (runnerOf w) w).
  - vm_compute. reflexivity.
  - vm_compute. reflexivity.
Defined.

(** The key of the table of a runner constructed at clock reading 1000. *)
Lemma counter_table_key_witness :
  let w := boot (project "plain") 1000 in
  let r1 := new_CoverageRunner cfg_plain "/p" 1%nat w in
  ∃ this this' w1 w2,
    r1 = (Return this, w1)
    ∧ setupCoverage (Ext := linux) this w1 = (Return this', w2)
    ∧ coverageVar this' = "$$cov_1000$$"
    ∧ globals w2 !! "$$cov_1000$$" = Some [].
Proof.
  set (w := boot (project "plain") 1000).
  set (r1 := new_CoverageRunner cfg_plain "/p" 1%nat w).
  set (r2 := setupCoverage (Ext := linux)
               (mkRunner cfg_plain "/p" "$$cov_1000$$" [] None) r1.2).
  assert (r1 = (Return (mkRunner cfg_plain "/p" "$$cov_1000$$" [] None), r1.2))
    as H1 by (vm_compute; reflexivity).
  assert (setupCoverage (Ext := linux)
            (mkRunner cfg_plain "/p" "$$cov_1000$$" [] None) r1.2
          = (Return (default (mkRunner JUndefined EmptyString EmptyString [] None)
                       (head (exitListeners r2.2))), r2.2))
    as H2 by (vm_compute; reflexivity).
  destruct (counter_table_key (Ext := linux) _ _ _ _ _ _ _ _ H1 H2)
    as (Hkey & Hempty & _).
  eexists _, _, _, _. split; [exact H1|]. split; [exact H2|].
  split; [exact Hkey | exact Hempty].
Defined.

(** C6, the counterexample. Two calls of [run] within the same
    millisecond construct two runners with the same coverage variable:
    the keys of their counter tables are not distinct. *)
Lemma same_millisecond_same_key :
  let w0 := boot (project "plain") 1000 in
  let w1 := (run (Ext := linux) "/p" 1%nat w0).2 in
  let w2 := (run (Ext := linux) "/p" 2%nat w1).2 in
  coverageVar <$> exitListeners w2 = ["$$cov_1000$$"; "$$cov_1000$$"]
  ∧ ¬ NoDup (coverageVar <$> exitListeners w2).
Proof.
  vm_compute. split; [reflexivity|].
  intros Hnd. apply NoDup_cons in Hnd as [Hnotin _]. apply Hnotin. by left.
Qed.

(** C1, at the failing input. On win32 the project's one source file is
    stored as [/P/src/A.js]; [matchFn.files] holds its lower-cased path.
    The tests load the file under the stored spelling; the hook accepts
    it and the instrumented module counts under that spelling.  The
    report step then finds no entry under the lower-cased path, adds a
    zero record for it, and the table ends up with two keys for one
    source file, one of them not in [matchFn.files]. *)
Theorem win32_mixed_case_two_entries :
  let w := session win32 projectNoCase "/P" ["/P/src/A.js"] in
  let out := processExit (Ext := win32) w in
  fileMap (runnerOf w) = ["/p/src/a.js"]
  ∧ keys (covOf "$$cov_1000$$" w) = ["/P/src/A.js"]
  ∧ out.1 = Return tt
  ∧ keys (covOf "$$cov_1000$$" out.2) = ["/P/src/A.js"; "/p/src/a.js"]
  ∧ "/P/src/A.js" ∉ fileMap (runnerOf w).
Proof.
  vm_compute. repeat split; try reflexivity.
  intros Hin. apply list_elem_of_singleton in Hin. discriminate Hin.
Qed.

End Runs.

(** ** Further properties of the module *)

Section Orchestration.
Context `{Ext : Externals}.

(** *** Observations a computation leaves alone *)

Lemma keepsField_ret {A B} (f : World → B) (a : A) : keepsField f (ret a).
Proof. done. Qed.

Lemma keepsField_throw {A B} (f : World → B) e : keepsField f (throw (A := A) e).
Proof. done. Qed.

Lemma keepsField_gets {A B} (f : World → B) (g : World → A) : keepsField f (gets g).
Proof. done. Qed.

Lemma keepsField_bind {A B C} (f : World → C) (m : M A) (k : A → M B) :
  keepsField f m → (∀ a, keepsField f (k a)) → keepsField f (bind m k).
Proof.
  intros Hm Hk w. unfold bind. specialize (Hm w).
  destruct (m w) as [[a|e] w1]; simpl in *; [|done].
  by rewrite Hk.
Qed.

Lemma keepsField_try_catch {A C} (f : World → C) (m : M A) handler :
  keepsField f m → (∀ e, keepsField f (handler e)) →
  keepsField f (try_catch m handler).
Proof.
  intros Hm Hh w. unfold try_catch. specialize (Hm w).
  destruct (m w) as [[a|e] w1]; simpl in *; [done|].
  by rewrite Hh.
Qed.

Lemma keepsField_forEach {A C} (f : World → C) (l : list A) body :
  (∀ x, keepsField f (body x)) → keepsField f (forEach l body).
Proof.
  intros Hbody. induction l as [|x l IH]; [done|].
  simpl. apply keepsField_bind; [apply Hbody | done].
Qed.

Lemma keepsField_external {A C} (f : World → C) (r : result A) :
  keepsField f (external r).
Proof. done. Qed.

Lemma keepsField_getProp {C} (f : World → C) o k : keepsField f (getProp o k).
Proof. by destruct o. Qed.

Lemma keepsField_path_join {C} (f : World → C) a b : keepsField f (path_join a b).
Proof. by destruct a, b. Qed.

Lemma keepsField_readFileSync {C} (f : World → C) p : keepsField f (fs_readFileSync p).
Proof. intros w. unfold fs_readFileSync. by destruct (fs w !! p) as [[]|]. Qed.

Lemma keepsField_transformer {C} (f : World → C) cv code filename :
  keepsField f (transformer cv code filename).
Proof. intros w. by rewrite transformer_world. Qed.

Lemma bind_run {A B} (m : M A) (k : A → M B) w a w1 :
  m w = (Return a, w1) → bind m k w = k a w1.
Proof. intros Hm. unfold bind. by rewrite Hm. Qed.

Lemma bind_external {A B} (r : result A) (k : A → M B) w :
  bind (external r) k w
  = match r with Return a => k a w | Throw e => (Throw e, w) end.
Proof. by destruct r. Qed.

(** *** Event projections *)

Lemma callbacks_app t1 t2 : callbacks (t1 ++ t2) = callbacks t1 ++ callbacks t2.
Proof. apply omap_app. Qed.

Lemma rendered_app t1 t2 : rendered (t1 ++ t2) = rendered t1 ++ rendered t2.
Proof. apply omap_app. Qed.

Lemma decached_app t1 t2 : decached (t1 ++ t2) = decached t1 ++ decached t2.
Proof. apply omap_app. Qed.

Lemma callbacks_decache (g : string → string) l :
  callbacks ((λ x, EvDecache (g x)) <$> l) = [].
Proof. by induction l. Qed.

Lemma decached_decache (g : string → string) l :
  decached ((λ x, EvDecache (g x)) <$> l) = g <$> l.
Proof. induction l; simpl; [done|]. by f_equal. Qed.

(** *** Reading the configuration *)

Lemma getProp_truthy o k : truthy o = true → getProp o k = ret (prop o k).
Proof. by destruct o. Qed.

(** X13. When the options handed to [configure] have no [coverConfig]
    field, [run] throws the TypeError of [path.join] and leaves the
    process as it found it. *)
Theorem run_no_coverConfig_name root clb w fields :
  testOptions w = JObj fields →
  assoc "coverConfig" fields = None →
  run root clb w = (Throw (TypeError "Path must be a string"), w).
Proof.
  intros Hopts Hname. unfold run, readCoverOptions, bind, gets, getProp, ret.
  rewrite Hopts, Hname. reflexivity.
Qed.

(** X11. When the coverage configuration cannot be read, because its
    path is a directory or its text is not JSON, [run] throws and leaves
    the process as it found it: nothing is armed and the search for test
    files is not started. *)
Theorem run_unreadable_config root clb w fields name :
  testOptions w = JObj fields →
  assoc "coverConfig" fields = Some (JStr name) →
  (configAt w root name = Some Dir ∨
   ∃ text, configAt w root name = Some (File text) ∧ JSON_parse text = None) →
  ∃ e, run root clb w = (Throw e, w).
Proof.
  unfold configAt. intros Hopts Hname Hbad.
  unfold run, readCoverOptions, bind, gets, getProp, ret, path_join,
    fs_existsSync, fs_readFileSync, JSON_parse_M, throw.
  rewrite Hopts, Hname. simpl.
  destruct Hbad as [Hdir | (text & Hfile & Hparse)].
  - rewrite Hdir. rewrite bool_decide_eq_true_2 by eauto. simpl.
    rewrite Hdir. eauto.
  - rewrite Hfile. rewrite bool_decide_eq_true_2 by eauto. simpl.
    rewrite Hfile, Hparse. eauto.
Qed.

(** X12. Coverage is armed only for a configuration that is truthy and
    has a truthy [enabled]: for [null], for a configuration without
    [enabled], or with [enabled] false, 0 or the empty string, [run] does
    nothing but start the search for test files. *)
Theorem run_enabled_falsy root clb w fields name text cfg :
  testOptions w = JObj fields →
  assoc "coverConfig" fields = Some (JStr name) →
  configAt w root name = Some (File text) →
  JSON_parse text = Some cfg →
  truthy cfg && truthy (prop cfg "enabled") = false →
  run root clb w
  = (Return tt, set_pendingGlob (pendingGlob w ++ [(root, clb)]) w).
Proof.
  intros Hopts Hname Hfile Hparse Hoff. unfold run, bind at 1.
  rewrite (readCoverOptions_present _ _ _ _ _ _ Hopts Hname Hfile Hparse).
  destruct (truthy cfg) eqn:Htruthy.
  - rewrite (getProp_truthy _ _ Htruthy). simpl in Hoff.
    unfold bind at 1, ret at 1. by rewrite Hoff.
  - unfold bind at 1, ret at 1. by rewrite Htruthy.
Qed.

(** *** Setting up coverage *)

Lemma addKey_elem k x ks : k ∈ addKey x ks ↔ k ∈ ks ∨ k = x.
Proof.
  unfold addKey. destruct (bool_decide_reflect (x ∈ ks)) as [Hin|Hout].
  - split; [tauto|]. intros [?| ->]; done.
  - rewrite elem_of_app, list_elem_of_singleton. tauto.
Qed.

Lemma addKey_NoDup x ks : NoDup ks → NoDup (addKey x ks).
Proof.
  intros Hnd. unfold addKey.
  destruct (bool_decide_reflect (x ∈ ks)) as [Hin|Hout]; [done|].
  apply NoDup_app. split; [done|]. split; [|apply NoDup_singleton].
  intros y Hy. rewrite list_elem_of_singleton. by intros ->.
Qed.

Lemma addKeys_elem (g : string → string) l : ∀ init k,
  k ∈ foldl (λ acc x, addKey (g x) acc) init l
  ↔ k ∈ init ∨ ∃ x, x ∈ l ∧ k = g x.
Proof.
  induction l as [|x l IH]; intros init k; simpl.
  { split; [tauto|]. intros [?|(x & Hx & _)]; [done|]. by apply elem_of_nil in Hx. }
  rewrite IH, addKey_elem. split.
  - intros [[?| ->]|(y & Hy & ->)]; [by left | right..].
    + exists x. split; [by left | done].
    + exists y. split; [by right | done].
  - intros [?|(y & Hy & ->)]; [tauto|].
    apply elem_of_cons in Hy as [->|Hy]; [tauto|]. right. eauto.
Qed.

Lemma addKeys_NoDup (g : string → string) l : ∀ init,
  NoDup init → NoDup (foldl (λ acc x, addKey (g x) acc) init l).
Proof.
  induction l as [|x l IH]; intros init Hnd; simpl; [done|].
  by apply IH, addKey_NoDup.
Qed.

(** X3. When [setupCoverage] returns, the glob under the source root
    returned a list of files; the table [matchFn.files] holds each key
    once, and holds exactly the full paths (lower-cased on win32) of the
    files found; the module cache is evicted for the full path of every
    file found, in the order of the glob, and the file system is not
    touched. *)
Theorem setupCoverage_fileMap this w this' w' :
  setupCoverage this w = (Return this', w') →
  ∃ rsp srcFiles,
    prop (options this) "relativeSourcePath" = JStr rsp
    ∧ let sourceRoot := path_join_str (testsRoot this) rsp in
      glob_sync (fs w) (prop (options this) "ignorePatterns") sourceRoot
      = Return srcFiles
      ∧ NoDup (fileMap this')
      ∧ (∀ k, k ∈ fileMap this' ↔ ∃ file, file ∈ srcFiles ∧ k = fullPathOf sourceRoot file)
      ∧ decached (trace w') = decached (trace w) ++ (fullPathOf sourceRoot <$> srcFiles)
      ∧ fs w' = fs w.
Proof.
  intros (rsp & srcFiles & Hrsp & Hglob & -> & ->)%setupCoverage_Return.
  exists rsp, srcFiles. split; [done|]. simpl. split; [done|].
  split; [|split; [|split]].
  - apply addKeys_NoDup, NoDup_nil_2.
  - intros k. rewrite addKeys_elem. split; [|tauto].
    intros [Hin|?]; [|done]. by apply elem_of_nil in Hin.
  - by rewrite decached_app, decached_decache.
  - done.
Qed.

(** X4. After [setupCoverage], [matchFn] accepts every file the glob
    found, under the path [path.join] gives it, on win32 as elsewhere. *)
Theorem setupCoverage_matches_found this w this' w' :
  setupCoverage this w = (Return this', w') →
  ∃ rsp srcFiles,
    prop (options this) "relativeSourcePath" = JStr rsp
    ∧ let sourceRoot := path_join_str (testsRoot this) rsp in
      glob_sync (fs w) (prop (options this) "ignorePatterns") sourceRoot
      = Return srcFiles
      ∧ ∀ file,
          file ∈ srcFiles →
          matchFn (fileMap this') (path_join_str sourceRoot file) = true.
Proof.
  intros (rsp & srcFiles & Hrsp & Hglob & -> & ->)%setupCoverage_Return.
  exists rsp, srcFiles. split; [done|]. simpl. split; [done|]. intros file Hfile.
  unfold matchFn. apply bool_decide_eq_true_2.
  apply addKeys_elem. right. exists file. split; [done|].
  unfold fullPathOf. by destruct (String.eqb os_platform "win32").
Qed.

(** [setupCoverage] on a runner whose options give a source path, when
    the glob under the source root returns. *)
Lemma setupCoverage_run this w fields rsp srcFiles :
  options this = JObj fields →
  assoc "relativeSourcePath" fields = Some (JStr rsp) →
  let sourceRoot := path_join_str (testsRoot this) rsp in
  glob_sync (fs w) (prop (options this) "ignorePatterns") sourceRoot
  = Return srcFiles →
  let files := foldl (λ acc file, addKey (fullPathOf sourceRoot file) acc) [] srcFiles in
  let this' := mkRunner (options this) (testsRoot this) (coverageVar this) files
                 (Some (length (requireHooks w))) in
  setupCoverage this w
  = (Return this',
     set_exitListeners (exitListeners w ++ [this'])
       (set_globals (<[coverageVar this := []]> (globals w))
          (set_requireHooks
             (requireHooks w ++ [mkHook files (coverageVar this) true])
             (emits ((λ file, EvDecache (fullPathOf sourceRoot file)) <$> srcFiles) w)))).
Proof.
  intros Hopts Hrsp. cbv zeta. unfold setupCoverage. rewrite Hopts.
  intros Hglob.
  assert (prop (JObj fields) "relativeSourcePath" = JStr rsp) as Hprop
    by (unfold prop; by rewrite Hrsp).
  erewrite bind_run by apply getProp_object. rewrite Hprop.
  erewrite bind_run by reflexivity.
  erewrite bind_run by apply getProp_object.
  erewrite bind_run by reflexivity.
  erewrite bind_run by (unfold external; by rewrite Hglob).
  erewrite bind_run by apply addSourceFiles_run.
  reflexivity.
Qed.

(** [setupCoverage] when the glob under the source root throws: the
    exception goes up, and neither hook, table nor listener was set up. *)
Lemma setupCoverage_glob_throws this w fields rsp e :
  options this = JObj fields →
  assoc "relativeSourcePath" fields = Some (JStr rsp) →
  glob_sync (fs w) (prop (options this) "ignorePatterns")
    (path_join_str (testsRoot this) rsp) = Throw e →
  setupCoverage this w = (Throw e, w).
Proof.
  intros Hopts Hrsp. unfold setupCoverage. rewrite Hopts. intros Hglob.
  assert (prop (JObj fields) "relativeSourcePath" = JStr rsp) as Hprop
    by (unfold prop; by rewrite Hrsp).
  erewrite bind_run by apply getProp_object. rewrite Hprop.
  erewrite bind_run by reflexivity.
  erewrite bind_run by apply getProp_object.
  erewrite bind_run by reflexivity.
  unfold bind, external. by rewrite Hglob.
Qed.

(** The constructor on options that give a source path. *)
Lemma new_CoverageRunner_run cfgFields root clb w rsp :
  assoc "relativeSourcePath" cfgFields = Some (JStr rsp) →
  new_CoverageRunner (JObj cfgFields) root clb w
  = (Return (mkRunner (JObj cfgFields) root (coverageVarAt (clock w)) [] None),
     if String.eqb rsp EmptyString
     then emit (EvCallback clb (ErrVal (JStr relativeSourcePath_error)) JUndefined) w
     else w).
Proof.
  intros Hrsp. unfold new_CoverageRunner, bind at 1, gets. unfold bind at 1.
  rewrite getProp_object. unfold prop. rewrite Hrsp. simpl.
  by destruct (String.eqb rsp EmptyString).
Qed.

(** [run] with coverage enabled and a source path in the configuration,
    when the glob under the source root returns. *)
Lemma run_enabled root clb w fields name text cfgFields rsp srcFiles :
  testOptions w = JObj fields →
  assoc "coverConfig" fields = Some (JStr name) →
  configAt w root name = Some (File text) →
  JSON_parse text = Some (JObj cfgFields) →
  truthy (prop (JObj cfgFields) "enabled") = true →
  assoc "relativeSourcePath" cfgFields = Some (JStr rsp) →
  glob_sync (fs w) (prop (JObj cfgFields) "ignorePatterns") (path_join_str root rsp)
  = Return srcFiles →
  ∃ this w',
    run root clb w = (Return tt, w')
    ∧ fileMap this
      = foldl (λ acc file, addKey (fullPathOf (path_join_str root rsp) file) acc)
          [] srcFiles
    ∧ options this = JObj cfgFields
    ∧ testsRoot this = root
    ∧ coverageVar this = coverageVarAt (clock w)
    ∧ unhookRequire this = Some (length (requireHooks w))
    ∧ exitListeners w' = exitListeners w ++ [this]
    ∧ requireHooks w' = requireHooks w ++ [mkHook (fileMap this) (coverageVar this) true]
    ∧ globals w' = <[coverageVar this := []]> (globals w)
    ∧ pendingGlob w' = pendingGlob w ++ [(root, clb)]
    ∧ fs w' = fs w
    ∧ callbacks (trace w')
      = callbacks (trace w)
        ++ if String.eqb rsp EmptyString
           then [(clb, ErrVal (JStr relativeSourcePath_error), JUndefined)]
           else [].
Proof.
  intros Hopts Hname Hfile Hparse Hon Hrsp Hglob.
  set (w0 := if String.eqb rsp EmptyString
             then emit (EvCallback clb (ErrVal (JStr relativeSourcePath_error))
                          JUndefined) w
             else w).
  set (this0 := mkRunner (JObj cfgFields) root (coverageVarAt (clock w)) [] None).
  assert (new_CoverageRunner (JObj cfgFields) root clb w = (Return this0, w0)) as Hnew
    by (by apply new_CoverageRunner_run).
  assert (fs w0 = fs w) as Hfs0 by (subst w0; by destruct (String.eqb _ _)).
  pose proof (setupCoverage_run this0 w0 cfgFields rsp srcFiles eq_refl Hrsp) as Hsetup.
  simpl in Hsetup. rewrite Hfs0 in Hsetup. specialize (Hsetup Hglob).
  eexists _, _. split.
  { unfold run, bind at 1.
    rewrite (readCoverOptions_present _ _ _ _ _ _ Hopts Hname Hfile Hparse).
    simpl truthy. cbv iota. unfold bind at 1. rewrite getProp_object, Hon.
    unfold bind at 1. unfold bind at 1. rewrite Hnew.
    unfold bind at 1. rewrite Hsetup. reflexivity. }
  simpl. subst w0.
  destruct (String.eqb rsp EmptyString); simpl;
    rewrite callbacks_app, ?callbacks_app, callbacks_decache; simpl;
    rewrite ?app_nil_r; repeat split; done.
Qed.

(** X2. With coverage enabled and a non-empty [relativeSourcePath], when
    the glob for the source files under the source root returns (it
    throws on ignore patterns it cannot use), [run] returns normally
    having installed one enabled require hook over the full paths of the
    files found, registered one exit listener for the new runner, stored
    an empty counter table under the runner's key and started the search
    for test files; it calls no callback and does not touch the file
    system (the coverage directory is not created at setup). *)
Theorem run_arms_coverage root clb w fields name text cfgFields rsp srcFiles :
  testOptions w = JObj fields →
  assoc "coverConfig" fields = Some (JStr name) →
  configAt w root name = Some (File text) →
  JSON_parse text = Some (JObj cfgFields) →
  truthy (prop (JObj cfgFields) "enabled") = true →
  assoc "relativeSourcePath" cfgFields = Some (JStr rsp) →
  rsp ≠ EmptyString →
  glob_sync (fs w) (prop (JObj cfgFields) "ignorePatterns") (path_join_str root rsp)
  = Return srcFiles →
  ∃ this w',
    run root clb w = (Return tt, w')
    ∧ fileMap this
      = foldl (λ acc file, addKey (fullPathOf (path_join_str root rsp) file) acc)
          [] srcFiles
    ∧ coverageVar this = coverageVarAt (clock w)
    ∧ exitListeners w' = exitListeners w ++ [this]
    ∧ requireHooks w' = requireHooks w ++ [mkHook (fileMap this) (coverageVar this) true]
    ∧ globals w' = <[coverageVar this := []]> (globals w)
    ∧ pendingGlob w' = pendingGlob w ++ [(root, clb)]
    ∧ fs w' = fs w
    ∧ callbacks (trace w') = callbacks (trace w).
Proof.
  intros Hopts Hname Hfile Hparse Hon Hrsp Hne Hfound.
  destruct (run_enabled root clb w _ _ _ _ _ _
              Hopts Hname Hfile Hparse Hon Hrsp Hfound)
    as (this & w' & Hrun & Hmap & _ & _ & Hcv & _ & Hexit & Hhooks & Hglob & Hpend
        & Hfs & Hcb).
  apply String.eqb_neq in Hne. rewrite Hne, app_nil_r in Hcb.
  exists this, w'. repeat split; done.
Qed.

(** X1. With coverage enabled and [relativeSourcePath] the empty string,
    the constructor reports the error to the completion callback, and
    [run] goes on all the same: the source root is the tests root joined
    with the empty string and, when the glob for the source files under
    it returns, the hook over the files found, the counter table and the
    exit listener are set up, and the search for test files is started,
    so that the callback will be called again when the tests end. *)
Theorem run_empty_relativeSourcePath root clb w fields name text cfgFields srcFiles :
  testOptions w = JObj fields →
  assoc "coverConfig" fields = Some (JStr name) →
  configAt w root name = Some (File text) →
  JSON_parse text = Some (JObj cfgFields) →
  truthy (prop (JObj cfgFields) "enabled") = true →
  assoc "relativeSourcePath" cfgFields = Some (JStr EmptyString) →
  glob_sync (fs w) (prop (JObj cfgFields) "ignorePatterns")
    (path_join_str root EmptyString) = Return srcFiles →
  ∃ this w',
    run root clb w = (Return tt, w')
    ∧ fileMap this
      = foldl (λ acc file,
                 addKey (fullPathOf (path_join_str root EmptyString) file) acc)
          [] srcFiles
    ∧ callbacks (trace w')
      = callbacks (trace w) ++ [(clb, ErrVal (JStr relativeSourcePath_error), JUndefined)]
    ∧ exitListeners w' = exitListeners w ++ [this]
    ∧ requireHooks w' = requireHooks w ++ [mkHook (fileMap this) (coverageVar this) true]
    ∧ globals w' = <[coverageVar this := []]> (globals w)
    ∧ pendingGlob w' = pendingGlob w ++ [(root, clb)].
Proof.
  intros Hopts Hname Hfile Hparse Hon Hrsp Hfound.
  destruct (run_enabled root clb w _ _ _ _ _ _
              Hopts Hname Hfile Hparse Hon Hrsp Hfound)
    as (this & w' & Hrun & Hmap & _ & _ & _ & _ & Hexit & Hhooks & Hglob & Hpend
        & _ & Hcb).
  exists this, w'. repeat split; done.
Qed.

(** X21. With coverage enabled, when the glob for the source files throws
    (as [glob.sync] does on ignore patterns it cannot use), [run] throws
    that exception: no hook is installed, no counter table stored, no exit
    listener registered, and the search for test files is not started. The
    process is as [run] found it, but for the call the constructor made
    to the completion callback when [relativeSourcePath] is empty. *)
Theorem run_glob_throws root clb w fields name text cfgFields rsp e :
  testOptions w = JObj fields →
  assoc "coverConfig" fields = Some (JStr name) →
  configAt w root name = Some (File text) →
  JSON_parse text = Some (JObj cfgFields) →
  truthy (prop (JObj cfgFields) "enabled") = true →
  assoc "relativeSourcePath" cfgFields = Some (JStr rsp) →
  glob_sync (fs w) (prop (JObj cfgFields) "ignorePatterns") (path_join_str root rsp)
  = Throw e →
  run root clb w
  = (Throw e,
     if String.eqb rsp EmptyString
     then emit (EvCallback clb (ErrVal (JStr relativeSourcePath_error)) JUndefined) w
     else w).
Proof.
  intros Hopts Hname Hfile Hparse Hon Hrsp Hglob.
  set (w0 := if String.eqb rsp EmptyString
             then emit (EvCallback clb (ErrVal (JStr relativeSourcePath_error))
                          JUndefined) w
             else w).
  set (this0 := mkRunner (JObj cfgFields) root (coverageVarAt (clock w)) [] None).
  assert (new_CoverageRunner (JObj cfgFields) root clb w = (Return this0, w0)) as Hnew
    by (by apply new_CoverageRunner_run).
  assert (fs w0 = fs w) as Hfs0 by (subst w0; by destruct (String.eqb _ _)).
  assert (setupCoverage this0 w0 = (Throw e, w0)) as Hsetup.
  { apply (setupCoverage_glob_throws this0 w0 cfgFields rsp e eq_refl Hrsp).
    simpl. by rewrite Hfs0. }
  unfold run, bind at 1.
  rewrite (readCoverOptions_present _ _ _ _ _ _ Hopts Hname Hfile Hparse).
  simpl truthy. cbv iota. unfold bind at 1. rewrite getProp_object, Hon.
  unfold bind at 1. unfold bind at 1. rewrite Hnew.
  unfold bind at 1. by rewrite Hsetup.
Qed.

End Orchestration.

Section ReportStep.
Context `{Ext : Externals}.

(** *** Pieces of the report step and what they leave alone *)

Section Ignoring.
Context {C : Type} (f : World → C).
Hypothesis Hglobals : ∀ x w, f (set_globals x w) = f w.
Hypothesis Hfs : ∀ x w, f (set_fs x w) = f w.
Hypothesis Hemit : ∀ e w, f (emit e w) = f w.

Lemma keepsField_fillMissing this file : keepsField f (fillMissing this file).
Proof.
  unfold fillMissing. apply keepsField_bind; [apply keepsField_gets|]. intros cov.
  destruct (negb _); [|apply keepsField_ret].
  apply keepsField_bind; [apply keepsField_readFileSync|]. intros code.
  apply keepsField_bind; [apply keepsField_transformer|]. intros out.
  intros w. apply Hglobals.
Qed.

Lemma keepsField_mkDirIfExists dir : keepsField f (mkDirIfExists dir).
Proof.
  unfold mkDirIfExists. apply keepsField_bind; [apply keepsField_gets|].
  intros present. destruct (negb present); [|apply keepsField_ret].
  intros w. unfold fs_mkdirSync. destruct (negb _); [done|].
  destruct (fs w !! dir); [done|]. simpl. by rewrite Hemit, Hfs.
Qed.

Lemma keepsField_writeFileSync file data : keepsField f (fs_writeFileSync file data).
Proof.
  intros w. rewrite fs_writeFileSync_run.
  destruct (isDir w file); [done|]. destruct (isDir w _); [|done].
  unfold withFile. simpl. by rewrite Hemit, Hfs.
Qed.

Lemma keepsField_renderReport dir cm t : keepsField f (renderReport dir cm t).
Proof.
  intros w. unfold renderReport. destruct (iReports_known t); [|done].
  apply Hemit.
Qed.

Lemma keepsField_writeReports this : keepsField f (writeReports this).
Proof.
  unfold writeReports.
  apply keepsField_bind; [apply keepsField_gets|]. intros cov.
  apply keepsField_bind; [apply keepsField_external|]. intros coverageMap.
  apply keepsField_bind; [apply keepsField_getProp|]. intros rcd.
  apply keepsField_bind; [apply keepsField_path_join|]. intros reportingDir.
  apply keepsField_bind; [apply keepsField_getProp|]. intros includePid.
  apply keepsField_bind; [apply keepsField_mkDirIfExists|]. intros _.
  apply keepsField_bind; [apply keepsField_writeFileSync|]. intros _.
  apply keepsField_bind; [apply keepsField_getProp|]. intros reports.
  apply keepsField_forEach. intros t. apply keepsField_renderReport.
Qed.

Lemma keepsField_emitReports this : keepsField f (emitReports this).
Proof.
  unfold emitReports. apply keepsField_bind; [|intros _; apply keepsField_writeReports].
  apply keepsField_forEach. intros file. apply keepsField_fillMissing.
Qed.

End Ignoring.

(** X14. Whatever the report step then does, return or throw, it has
    first disabled the runner's require hook, and the hook stays
    disabled: the hooks after the step are those before it with the
    runner's one switched off. *)
Theorem reportCoverage_disables_hook this handle w :
  unhookRequire this = Some handle →
  requireHooks (reportCoverage this w).2 = alter disable handle (requireHooks w)
  ∧ ∀ h, requireHooks (reportCoverage this w).2 !! handle = Some h →
         hk_enabled h = false.
Proof.
  intros Hhandle.
  assert (requireHooks (reportCoverage this w).2
          = alter disable handle (requireHooks w)) as Heq.
  { unfold reportCoverage, call_unhookRequire. rewrite Hhandle.
    erewrite bind_run by reflexivity.
    erewrite bind_run by reflexivity.
    set (w0 := set_requireHooks _ w).
    change (alter disable handle (requireHooks w)) with (requireHooks w0).
    destruct (globals w0 !! coverageVar this) as [[|first rest]|]; [done| |done].
    by apply keepsField_emitReports. }
  split; [exact Heq|]. intros h. rewrite Heq, list_lookup_alter_eq.
  destruct (requireHooks w !! handle); by intros [= <-].
Qed.

(** *** The loop over [matchFn.files] *)

Lemma synthetic_zero cv files file fc :
  synthetic cv files file = Some fc →
  ∀ key n, fc_s fc !! key = Some n → n = 0.
Proof.
  unfold synthetic. destruct (files !! file) as [[code|]|]; [|done..].
  destruct (instrumentSync _ _ _ _) as [out|]; [|done].
  intros [= <-] key n. simpl. rewrite lookup_fmap.
  destruct (fc_s out.2 !! key); by intros [= <-].
Qed.

Lemma fill_prefix cv files paths : ∀ cov cov',
  fill cv files paths cov = Some cov' →
  ∃ added,
    cov' = cov ++ added
    ∧ Forall (λ e, e.1 ∈ paths ∧ assoc e.1 cov = None
                   ∧ synthetic cv files e.1 = Some e.2) added.
Proof.
  induction paths as [|file rest IH]; intros cov cov'; simpl.
  { intros [= <-]. exists []. by rewrite app_nil_r. }
  destruct (assoc file cov) eqn:Hfile.
  - intros (added & -> & Hall)%IH. exists added. split; [done|].
    eapply Forall_impl; [done|]. intros e (? & ? & ?). split; [by right | done].
  - destruct (synthetic cv files file) as [fc|] eqn:Hsynth; [|done].
    intros (added & -> & Hall)%IH. rewrite (setProp_fresh _ _ _ Hfile).
    exists ((file, fc) :: added). rewrite <-app_assoc. split; [done|].
    apply Forall_cons. split; [split; [by left | done]|].
    eapply Forall_impl; [done|]. intros e (Hin & Hnew & Hsyn).
    split; [by right|]. split; [|done].
    destruct (decide (file = e.1)) as [Heq|Hne].
    + rewrite <-Heq, setProp_fresh, <-setProp_fresh in Hnew by done.
      by rewrite assoc_setProp_eq in Hnew.
    + by rewrite setProp_fresh, <-setProp_fresh, assoc_setProp_ne in Hnew.
Qed.


(** X5. A report step that runs to its end leaves the entries the test
    run produced as they are and where they are: the table it leaves is
    the table it found followed by new entries, each for a path of
    [matchFn.files] that had none, and each with all statement counters
    at zero. *)
Theorem reportCoverage_keeps_live_entries this w w' first rest :
  globals w !! coverageVar this = Some (first :: rest) →
  reportCoverage this w = (Return tt, w') →
  ∃ added,
    covOf (coverageVar this) w' = (first :: rest) ++ added
    ∧ Forall (λ e, e.1 ∈ fileMap this
                   ∧ assoc e.1 (first :: rest) = None
                   ∧ ∀ key n, fc_s e.2 !! key = Some n → n = 0) added.
Proof.
  intros Hcov Hrun.
  destruct (reportCoverage_Return _ _ _ _ _ Hcov Hrun)
    as (handle & cov' & _ & Hfill & Hwrite).
  apply fill_prefix in Hfill as (added & -> & Hall).
  exists added. split.
  - unfold covOf. rewrite (writeReports_globals _ _ _ Hwrite). simpl.
    by rewrite lookup_insert_eq.
  - eapply Forall_impl; [done|]. intros e (? & ? & Hsyn).
    split; [done|]. split; [done|]. by eapply synthetic_zero.
Qed.



End ReportStep.

Section Emission.
Context `{Ext : Externals}.

(** *** The reporting directory *)

Lemma mkDirIfExists_run dir w :
  (is_Some (fs w !! dir)
   ∨ (fs w !! dir = None ∧ isDir w (path_dirname dir) = true)) →
  mkDirIfExists dir w = (Return tt, withDir dir w).
Proof.
  unfold mkDirIfExists, withDir, bind, fs_existsSync, gets, fs_mkdirSync.
  intros [Hthere | [Hfree Hparent]].
  - by rewrite bool_decide_eq_true_2.
  - rewrite bool_decide_eq_false_2 by (rewrite Hfree; by intros [? ?]).
    simpl. by rewrite Hparent, Hfree.
Qed.

(** X18. [mkDirIfExists] creates the directory only when nothing is at
    the path: when something is there, a directory or a regular file, it
    returns without touching the process; after any call that returned
    the path resolves, and calling again changes nothing. *)
Theorem mkDirIfExists_idempotent dir w w' :
  mkDirIfExists dir w = (Return tt, w') →
  is_Some (fs w' !! dir)
  ∧ (is_Some (fs w !! dir) → w' = w)
  ∧ mkDirIfExists dir w' = (Return tt, w').
Proof.
  intros ->%mkDirIfExists_Return. split; [apply withDir_present|]. split.
  - intros Hthere. unfold withDir. by rewrite bool_decide_eq_true_2.
  - apply mkDirIfExists_present, withDir_present.
Qed.

(** X19. When the parent of the reporting directory is not a directory
    and nothing is at the path, [mkDirIfExists] throws and creates
    nothing. The exception is ENOTDIR when the parent is a regular file,
    and ENOENT when the parent is missing from a directory. *)
Theorem mkDirIfExists_no_parent dir w :
  fs w !! dir = None →
  isDir w (path_dirname dir) = false →
  mkDirIfExists dir w = (Throw (pathError w dir), w)
  ∧ (∀ text, fs w !! path_dirname dir = Some (File text) →
             pathError w dir = ENOTDIR dir)
  ∧ (fs w !! path_dirname dir = None →
     isDir w (path_dirname (path_dirname dir)) = true →
     pathError w dir = ENOENT dir).
Proof.
  intros Hfree Hparent. split; [|split].
  - unfold mkDirIfExists, bind, fs_existsSync, gets, fs_mkdirSync.
    rewrite bool_decide_eq_false_2 by (rewrite Hfree; by intros [? ?]).
    simpl. by rewrite Hparent.
  - intros text Hfile. unfold pathError. simpl. by rewrite Hfile.
  - intros Hnone Hgrand. unfold pathError. simpl. rewrite Hnone.
    destruct (String.length dir); [done|]. simpl.
    unfold isDir in Hgrand.
    by destruct (fs w !! path_dirname (path_dirname dir)) as [[]|].
Qed.

(** *** The transformer with a source map *)

(** X20. When the companion [.map] file is there and its text is JSON,
    the transformer hands the parsed map to the instrumenter, and its
    outcome is the instrumenter's for the code, the file name and that
    map; it never changes the process. *)
Theorem transformer_with_source_map cv code filename w text map :
  fs w !! (filename +:+ ".map") = Some (File text) →
  JSON_parse text = Some map →
  transformer cv code filename w
  = (match instrumentSync cv code filename map with
     | Some out => Return out
     | None => Throw (InstrumentError filename)
     end, w).
Proof.
  intros Hfile Hparse.
  unfold transformer, bind, try_catch, fs_readFileSync, JSON_parse_M, ret, throw.
  rewrite Hfile, Hparse. by destruct (instrumentSync _ _ _ _).
Qed.

(** *** From the counter table to the reports *)

Lemma forEach_render_stop dir cm bad post : ∀ pre w,
  forallb iReports_known pre = true →
  iReports_known bad = false →
  forEach (pre ++ bad :: post) (renderReport dir cm) w
  = (Throw (UnknownReport bad), emits ((λ t, EvRender t dir cm) <$> pre) w).
Proof.
  induction pre as [|t pre IH]; intros w Hpre Hbad; simpl.
  - unfold bind, renderReport. rewrite Hbad. unfold throw. by rewrite emits_nil.
  - simpl in Hpre. apply andb_true_iff in Hpre as [Ht Hpre].
    unfold bind. unfold renderReport at 1. rewrite Ht. unfold modify.
    by rewrite IH, emits_cons.
Qed.

Lemma rendered_render dir cm types :
  rendered ((λ t, EvRender t dir cm) <$> types) = (λ t, (t, dir, cm)) <$> types.
Proof. induction types; simpl; [done|]. by f_equal. Qed.

Lemma withDir_rendered dir w : rendered (trace (withDir dir w)) = rendered (trace w).
Proof.
  unfold withDir. destruct (bool_decide _); [done|]. simpl.
  rewrite rendered_app. simpl. by rewrite app_nil_r.
Qed.

(** X9. In a report step that runs to its end, the JSON snapshot is the
    text of the counter table as the loop left it, not of the map the
    source-map store produced from it, and it goes to
    [coverage[-pid].json] in the reporting directory; every renderer is
    given that directory and the translated map. *)
Theorem reportCoverage_snapshot_and_reports this w w' first rest :
  globals w !! coverageVar this = Some (first :: rest) →
  reportCoverage this w = (Return tt, w') →
  ∃ d coverageMap,
    prop (options this) "relativeCoverageDir" = JStr d
    ∧ let dir := path_join_str (testsRoot this) d in
      let cov := covOf (coverageVar this) w' in
      transformCoverage cov = Return coverageMap
      ∧ writes (trace w')
        = writes (trace w) ++ [(coverageFileOf this dir, JSON_stringify cov)]
      ∧ rendered (trace w')
        = rendered (trace w)
          ++ ((λ t, (t, dir, coverageMap))
                <$> reportTypesOf (prop (options this) "reports")).
Proof.
  intros Hcov Hrun.
  destruct (reportCoverage_Return _ _ _ _ _ Hcov Hrun)
    as (handle & cov' & _ & _ & Hwrite).
  pose proof (writeReports_globals _ _ _ Hwrite) as Hglobals.
  apply writeReports_Return in Hwrite as (d & cm & Hd & Hmap & _ & _ & _ & Hw').
  exists d, cm. split; [done|]. cbv zeta.
  assert (covOf (coverageVar this) w' = cov') as ->.
  { unfold covOf. rewrite Hglobals. simpl. by rewrite lookup_insert_eq. }
  assert (covOf (coverageVar this)
            (set_globals (<[coverageVar this := cov']> (globals w))
               (set_requireHooks (alter disable handle (requireHooks w)) w))
          = cov') as Hcov0
    by (unfold covOf; simpl; by rewrite lookup_insert_eq).
  rewrite Hcov0 in Hw', Hmap. split; [done|]. rewrite Hw'. simpl. split.
  - rewrite !writes_app, writes_render. simpl.
    rewrite (proj1 (withDir_trace _ _)). simpl. by rewrite app_nil_r.
  - rewrite !rendered_app, rendered_render. simpl.
    rewrite withDir_rendered. simpl. by rewrite app_nil_r.
Qed.

Section Ready.
Variables (this : CoverageRunner) (handle : nat) (w : World).
Variables (first : string * FileCoverage) (rest : CounterTable) (d : string).
Let dir := path_join_str (testsRoot this) d.
Let file := coverageFileOf this dir.
Hypothesis Hhandle : unhookRequire this = Some handle.
Hypothesis Hcov : globals w !! coverageVar this = Some (first :: rest).
Hypothesis Hcan :
  ∀ f, f ∈ fileMap this → assoc f (first :: rest) = None →
       ∃ code out, fs w !! f = Some (File code)
                   ∧ transformer (coverageVar this) code f w = (Return out, w).
Hypothesis Hd : prop (options this) "relativeCoverageDir" = JStr d.
Hypothesis Hdir :
  fs w !! dir = Some Dir
  ∨ (fs w !! dir = None ∧ isDir w (path_dirname dir) = true).
Hypothesis Hparent : path_dirname file = dir.
Hypothesis Hdistinct : file ≠ dir.
Hypothesis Hfile : isDir w file = false.

(** Up to the first renderer: the step stops at the source-map store
    when that throws, before anything is created or written. *)
Lemma reportCoverage_to_render :
  ∃ cov',
    fill (coverageVar this) (fs w) (fileMap this) (first :: rest) = Some cov'
    ∧ let w1 := set_globals (<[coverageVar this := cov']> (globals w))
                  (set_requireHooks (alter disable handle (requireHooks w)) w) in
      reportCoverage this w
      = match transformCoverage cov' with
        | Return coverageMap =>
            forEach (reportTypesOf (prop (options this) "reports"))
              (renderReport dir coverageMap)
              (withFile file (JSON_stringify cov') (withDir dir w1))
        | Throw e => (Throw e, w1)
        end.
Proof using All.
  destruct (fill_total (coverageVar this) (fs w) (fileMap this) (first :: rest))
    as [cov' Hfill].
  { intros f Hf Hout. apply assoc_None in Hout.
    destruct (Hcan f Hf Hout) as (code & out & Hcode & Htrans).
    exists (zeroStatements out.2). apply synthetic_transformer. eauto. }
  exists cov'. split; [done|]. cbv zeta.
  rewrite (reportCoverage_nonempty _ _ _ _ Hhandle Hcov) by done.
  set (w0 := set_requireHooks _ w).
  pose proof (fill_loop this (fileMap this) w0 _ Hcov) as Hloop.
  change (fs w0) with (fs w) in Hloop. rewrite Hfill in Hloop.
  unfold emitReports. erewrite bind_run by exact Hloop.
  set (w1 := set_globals _ w0).
  assert (∀ k w2, getProp (options this) k w2
                  = (Return (prop (options this) k), w2)) as Hget.
  { intros k w2. destruct (options this); try done. }
  assert (covOf (coverageVar this) w1 = cov') as Hcov1
    by (unfold covOf; simpl; by rewrite lookup_insert_eq).
  unfold writeReports.
  erewrite bind_run by reflexivity. rewrite Hcov1, bind_external.
  destruct (transformCoverage cov') as [coverageMap|e]; [|done].
  erewrite bind_run by apply Hget. rewrite Hd.
  erewrite bind_run by reflexivity.
  erewrite bind_run by apply Hget.
  change (path_join_str (testsRoot this) d) with dir.
  change (path_resolve dir _) with file.
  erewrite bind_run; cycle 1.
  { apply mkDirIfExists_run. change (fs w1) with (fs w).
    destruct Hdir as [Hthere | Hfree]; [left; by rewrite Hthere | right; exact Hfree]. }
  assert (isDir (withDir dir w1) dir = true) as Hisdir.
  { unfold withDir, isDir. change (fs w1) with (fs w).
    destruct Hdir as [Hthere | [Hfree _]].
    - rewrite bool_decide_eq_true_2 by (by rewrite Hthere).
      change (fs w1) with (fs w). by rewrite Hthere.
    - rewrite bool_decide_eq_false_2 by (rewrite Hfree; by intros [? ?]).
      simpl. by rewrite lookup_insert_eq. }
  assert (isDir (withDir dir w1) file = false) as Hnotdir.
  { unfold withDir, isDir. destruct (bool_decide _); [exact Hfile|].
    simpl. rewrite lookup_insert_ne by done. exact Hfile. }
  erewrite bind_run; cycle 1.
  { rewrite fs_writeFileSync_run, Hnotdir, Hparent, Hisdir. reflexivity. }
  erewrite bind_run by apply Hget.
  reflexivity.
Qed.

(** X17. When every path of [matchFn.files] without an entry can be read
    and instrumented, the reporting directory is there or can be created
    in its parent, no directory sits at the path of the snapshot, and the
    renderer knows every requested report type, the outcome of the report
    step is decided by the source-map store on the completed table. When
    the store returns, the step runs to its end, the directory exists and
    the snapshot file holds the text of the completed table; when the
    store throws, the step throws the same exception and has created and
    written nothing. *)
Theorem reportCoverage_succeeds :
  forallb iReports_known (reportTypesOf (prop (options this) "reports")) = true →
  let out := reportCoverage this w in
  let cov' := covOf (coverageVar this) out.2 in
  match transformCoverage cov' with
  | Return _ =>
      out.1 = Return tt
      ∧ isDir out.2 dir = true
      ∧ fs out.2 !! file = Some (File (JSON_stringify cov'))
  | Throw e =>
      out.1 = Throw e ∧ fs out.2 = fs w ∧ trace out.2 = trace w
  end.
Proof using All.
  intros Hknown. destruct reportCoverage_to_render as (cov' & _ & Hrun).
  cbv zeta in Hrun. cbv zeta.
  destruct (transformCoverage cov') as [coverageMap|e] eqn:Hmap.
  - pose proof (forEach_render dir coverageMap
                  (reportTypesOf (prop (options this) "reports"))) as Hrender.
    rewrite Hknown in Hrender. rewrite Hrender in Hrun.
    assert (covOf (coverageVar this) (reportCoverage this w).2 = cov') as Hfinal.
    { rewrite Hrun. unfold covOf. simpl. rewrite withDir_globals. simpl.
      by rewrite lookup_insert_eq. }
    rewrite Hfinal, Hmap, Hrun. split; [done|].
    unfold isDir. simpl. rewrite !lookup_insert_eq. split; [|done].
    rewrite lookup_insert_ne by done.
    unfold withDir. simpl. destruct Hdir as [Hthere | [Hfree _]].
    + rewrite bool_decide_eq_true_2 by (by rewrite Hthere). simpl. by rewrite Hthere.
    + rewrite bool_decide_eq_false_2 by (rewrite Hfree; by intros [? ?]).
      simpl. by rewrite lookup_insert_eq.
  - assert (covOf (coverageVar this) (reportCoverage this w).2 = cov') as Hfinal.
    { rewrite Hrun. unfold covOf. simpl. by rewrite lookup_insert_eq. }
    by rewrite Hfinal, Hmap, Hrun.
Qed.

(** X6. A report type the renderer does not know is found out only when
    its turn comes. When the source-map store has translated the
    completed table, the snapshot is on disk by then and the reports
    listed before the unknown one are rendered; the step then throws, and
    the reports listed after it are not rendered. When the store throws,
    the step throws the store's exception instead, and nothing is written
    or rendered. *)
Theorem reportCoverage_unknown_report_type pre bad post :
  reportTypesOf (prop (options this) "reports") = pre ++ bad :: post →
  forallb iReports_known pre = true →
  iReports_known bad = false →
  let out := reportCoverage this w in
  let cov' := covOf (coverageVar this) out.2 in
  match transformCoverage cov' with
  | Return _ =>
      out.1 = Throw (UnknownReport bad)
      ∧ fs out.2 !! file = Some (File (JSON_stringify cov'))
      ∧ renders (trace out.2) = renders (trace w) ++ pre
  | Throw e =>
      out.1 = Throw e ∧ fs out.2 = fs w ∧ trace out.2 = trace w
  end.
Proof using All.
  intros Htypes Hpre Hbad. destruct reportCoverage_to_render as (cov' & _ & Hrun).
  cbv zeta in Hrun. cbv zeta.
  destruct (transformCoverage cov') as [coverageMap|e] eqn:Hmap.
  - rewrite Htypes, (forEach_render_stop _ _ _ _ _ _ Hpre Hbad) in Hrun.
    assert (covOf (coverageVar this) (reportCoverage this w).2 = cov') as Hfinal.
    { rewrite Hrun. unfold covOf. simpl. rewrite withDir_globals. simpl.
      by rewrite lookup_insert_eq. }
    rewrite Hfinal, Hmap, Hrun. split; [done|]. simpl.
    rewrite !lookup_insert_eq. split; [done|].
    rewrite !renders_app, renders_render. simpl.
    rewrite (proj2 (withDir_trace _ _)). simpl. by rewrite app_nil_r.
  - assert (covOf (coverageVar this) (reportCoverage this w).2 = cov') as Hfinal.
    { rewrite Hrun. unfold covOf. simpl. by rewrite lookup_insert_eq. }
    by rewrite Hfinal, Hmap, Hrun.
Qed.

End Ready.

End Emission.

Section TestRuns.
Context `{Ext : Externals}.

(** *** The callback of the search for test files *)

Lemma keepsField_requireFile {C} (f : World → C) filename :
  (∀ x w, f (set_globals x w) = f w) → keepsField f (requireFile filename).
Proof.
  intros Hglobals. unfold requireFile.
  apply keepsField_bind; [apply keepsField_readFileSync|]. intros code.
  apply keepsField_bind; [apply keepsField_gets|]. intros hooks.
  apply keepsField_forEach. intros h. unfold applyHook.
  destruct (_ && _); [|apply keepsField_ret].
  apply keepsField_try_catch; [|intros; apply keepsField_ret].
  apply keepsField_bind; [apply keepsField_transformer|]. intros out w.
  apply Hglobals.
Qed.

Lemma keepsCallbacks_loading files root loads :
  keepsField (λ w, callbacks (trace w))
    (forEach files (λ f, mocha_addFile (path_join_str root f)) ;;
     modify (emit EvMochaRun) ;;
     forEach loads requireFile).
Proof.
  apply keepsField_bind; [|intros _; apply keepsField_bind]; [| |intros _].
  - apply keepsField_forEach. intros f w. simpl.
    rewrite callbacks_app. simpl. by rewrite app_nil_r.
  - intros w. simpl. rewrite callbacks_app. simpl. by rewrite app_nil_r.
  - apply keepsField_forEach. intros filename. by apply keepsField_requireFile.
Qed.

(** X10. The function handed to [glob] never throws and calls the
    completion callback exactly once, whatever the search found, whatever
    the tests load and however they end; when the search failed, the
    call carries the error of the search and no test file is added or
    run. *)
Theorem globCallback_calls_back_once root clb t error files w :
  ∃ err res,
    (globCallback root clb t error files w).1 = Return JUndefined
    ∧ callbacks (trace (globCallback root clb t error files w).2)
      = callbacks (trace w) ++ [(clb, err, res)]
    ∧ (truthy error = true →
       (globCallback root clb t error files w).2
       = emit (EvCallback clb (ErrVal error) JUndefined) w).
Proof.
  unfold globCallback. destruct (truthy error).
  { eexists _, _. split; [done|]. split; [|done].
    simpl. rewrite callbacks_app. done. }
  pose proof (keepsCallbacks_loading files root (tr_loads t) w) as Hkeeps.
  unfold try_catch, mocha_run. unfold bind in *.
  destruct (forEach files _ w) as [[[]|e1] w1]; simpl in *.
  - destruct (forEach (tr_loads t) requireFile _) as [[[]|e2] w2]; simpl in *.
    + destruct (tr_outcome t) as [e3|failures]; simpl.
      * eexists _, _. split; [done|]. split; [|done].
        rewrite callbacks_app, Hkeeps. done.
      * eexists _, _. split; [done|]. split; [|done].
        rewrite callbacks_app, Hkeeps. done.
    + eexists _, _. split; [done|]. split; [|done].
      rewrite callbacks_app, Hkeeps. done.
  - eexists _, _. split; [done|]. split; [|done].
    rewrite callbacks_app, Hkeeps. done.
Qed.

(** *** What loading puts into a counter table *)

Lemma applyHook_keys cv filename code h w k :
  k ∈ keys (covOf cv (applyHook filename code h w).2) →
  k ∈ keys (covOf cv w) ∨ k = filename.
Proof.
  unfold applyHook. destruct (_ && _); [|by left].
  unfold try_catch, bind.
  pose proof (transformer_world (hk_coverageVar h) code filename w) as Hw.
  destruct (transformer _ _ _ _) as [[out|e] w1]; simpl in Hw; subst w1;
    [|by left].
  unfold runInstrumentedModule, modify. simpl. unfold covOf at 1. simpl.
  destruct (decide (hk_coverageVar h = cv)) as [->|Hne].
  - rewrite lookup_insert_eq. simpl. rewrite keys_setProp.
    destruct (bool_decide _); [by left|].
    intros [?| ->%list_elem_of_singleton]%elem_of_app; tauto.
  - rewrite lookup_insert_ne by done. by left.
Qed.

Lemma applyHooks_keys cv filename code hooks : ∀ w k,
  k ∈ keys (covOf cv (forEach hooks (applyHook filename code) w).2) →
  k ∈ keys (covOf cv w) ∨ k = filename.
Proof.
  induction hooks as [|h hooks IH]; intros w k; simpl; [by left|].
  unfold bind.
  pose proof (applyHook_keys cv filename code h w) as Hone.
  destruct (applyHook filename code h w) as [[[]|e] w1]; simpl in *.
  - intros [Hk|Hk]%IH; [by apply Hone | by right].
  - apply Hone.
Qed.

Lemma requireFile_keys cv filename w k :
  k ∈ keys (covOf cv (requireFile filename w).2) →
  k ∈ keys (covOf cv w) ∨ k = filename.
Proof.
  unfold requireFile, bind at 1, fs_readFileSync.
  destruct (fs w !! filename) as [[code|]|]; try by left.
  unfold bind, gets. apply applyHooks_keys.
Qed.

Lemma loads_keys cv loads : ∀ w k,
  k ∈ keys (covOf cv (forEach loads requireFile w).2) →
  k ∈ keys (covOf cv w) ∨ k ∈ loads.
Proof.
  induction loads as [|filename loads IH]; intros w k; simpl; [by left|].
  unfold bind.
  pose proof (requireFile_keys cv filename w) as Hone.
  destruct (requireFile filename w) as [[[]|e] w1]; simpl in *.
  - intros [Hk|Hk]%IH.
    + destruct (Hone k Hk) as [?| ->]; [by left | right; by left].
    + right. by right.
  - intros Hk. destruct (Hone k Hk) as [?| ->]; [by left | right; by left].
Qed.

(** X15. From setup to report, on any platform: a path of
    [matchFn.files] that the test run never loaded under that spelling
    ends, in the table of a completed report step, with an entry whose
    statement counters are all zero. *)
Theorem never_loaded_all_zero this0 w0 this w1 loads res w2 w3 first rest file :
  setupCoverage this0 w0 = (Return this, w1) →
  forEach loads requireFile w1 = (res, w2) →
  globals w2 !! coverageVar this = Some (first :: rest) →
  reportCoverage this w2 = (Return tt, w3) →
  file ∈ fileMap this →
  file ∉ loads →
  ∃ fc, assoc file (covOf (coverageVar this) w3) = Some fc
        ∧ ∀ key n, fc_s fc !! key = Some n → n = 0.
Proof.
  intros (rsp & srcFiles & _ & _ & Hthis & Hw1)%setupCoverage_Return
    Hloads Hcov Hreport Hin Hout.
  assert (assoc file (first :: rest) = None) as Hnew.
  { apply assoc_None. intros Hk.
    pose proof (loads_keys (coverageVar this) loads w1 file) as Hkeys.
    rewrite Hloads in Hkeys. unfold covOf in Hkeys at 1. simpl in Hkeys.
    rewrite Hcov in Hkeys. destruct (Hkeys Hk) as [Hold|?]; [|done].
    revert Hold. rewrite Hw1, Hthis. unfold covOf. simpl.
    rewrite lookup_insert_eq. simpl. apply not_elem_of_nil. }
  destruct (reportCoverage_Return _ _ _ _ _ Hcov Hreport)
    as (handle & cov' & _ & Hfill & Hwrite).
  destruct (fill_new _ _ _ _ _ _ Hfill Hin Hnew) as (fc & Hsynth & Hfc).
  exists fc. split.
  - unfold covOf. rewrite (writeReports_globals _ _ _ Hwrite). simpl.
    by rewrite lookup_insert_eq.
  - by eapply synthetic_zero.
Qed.

End TestRuns.

(** ** Further concrete runs *)

Section MoreRuns.
Import Demo.

(** [run] after a [configure] whose options name no configuration. *)
Lemma run_no_coverConfig_name_witness :
  let w := (configure JUndefined (JObj []) (moduleLoaded (project "plain") 1000)).2 in
  run (Ext := linux) "/p" 1%nat w = (Throw (TypeError "Path must be a string"), w).
Proof.
  apply (run_no_coverConfig_name (Ext := linux) "/p" 1%nat _ []); reflexivity.
Defined.

(** [run] with a configuration file that is not JSON. *)
Lemma run_unreadable_config_witness :
  let w := boot (project "{enabled:") 1000 in
  ∃ e, run (Ext := linux) "/p" 1%nat w = (Throw e, w).
Proof.
  apply (run_unreadable_config (Ext := linux) "/p" 1%nat
           (boot (project "{enabled:") 1000)
           [("coverConfig", JStr "cover.json")] "cover.json").
  - reflexivity.
  - reflexivity.
  - right. exists "{enabled:". split; [vm_compute; reflexivity | reflexivity].
Defined.

(** [run] with a configuration that says nothing about [enabled]. *)
Lemma run_enabled_falsy_witness :
  let w := boot (project "no-enabled") 1000 in
  run (Ext := Demo2.linux) "/p" 1%nat w
  = (Return tt, set_pendingGlob (pendingGlob w ++ [("/p", 1%nat)]) w).
Proof.
  apply (run_enabled_falsy (Ext := Demo2.linux) "/p" 1%nat
           (boot (project "no-enabled") 1000)
           [("coverConfig", JStr "cover.json")] "cover.json" "no-enabled"
           Demo2.cfg_noEnabled).
  - reflexivity.
  - reflexivity.
  - vm_compute. reflexivity.
  - reflexivity.
  - reflexivity.
Defined.

(** [run] on the demo project with coverage on. *)
Lemma run_arms_coverage_witness :
  let w := boot (project "plain") 1000 in
  ∃ this w',
    run (Ext := linux) "/p" 1%nat w = (Return tt, w')
    ∧ fileMap this = ["/p/src/a.js"; "/p/src/b.js"]
    ∧ coverageVar this = "$$cov_1000$$"
    ∧ exitListeners w' = exitListeners w ++ [this]
    ∧ requireHooks w' = requireHooks w ++ [mkHook (fileMap this) (coverageVar this) true]
    ∧ globals w' = <[coverageVar this := []]> (globals w)
    ∧ pendingGlob w' = pendingGlob w ++ [("/p", 1%nat)]
    ∧ fs w' = fs w
    ∧ callbacks (trace w') = callbacks (trace w).
Proof.
  apply (run_arms_coverage (Ext := linux) "/p" 1%nat
           (boot (project "plain") 1000)
           [("coverConfig", JStr "cover.json")] "cover.json" "plain"
           [("enabled", JBool true); ("relativeSourcePath", JStr "src");
            ("relativeCoverageDir", JStr "coverage")] "src" ["a.js"; "b.js"]).
  - reflexivity.
  - reflexivity.
  - vm_compute. reflexivity.
  - reflexivity.
  - reflexivity.
  - reflexivity.
  - discriminate.
  - vm_compute. reflexivity.
Defined.

(** [run] with [relativeSourcePath] the empty string. *)
Lemma run_empty_relativeSourcePath_witness :
  let w := boot (project "empty-source") 1000 in
  ∃ this w',
    run (Ext := Demo2.linux) "/p" 1%nat w = (Return tt, w')
    ∧ fileMap this = []
    ∧ callbacks (trace w')
      = callbacks (trace w)
        ++ [(1%nat, ErrVal (JStr relativeSourcePath_error), JUndefined)]
    ∧ exitListeners w' = exitListeners w ++ [this]
    ∧ requireHooks w' = requireHooks w ++ [mkHook (fileMap this) (coverageVar this) true]
    ∧ globals w' = <[coverageVar this := []]> (globals w)
    ∧ pendingGlob w' = pendingGlob w ++ [("/p", 1%nat)].
Proof.
  apply (run_empty_relativeSourcePath (Ext := Demo2.linux) "/p" 1%nat
           (boot (project "empty-source") 1000)
           [("coverConfig", JStr "cover.json")] "cover.json" "empty-source"
           [("enabled", JBool true); ("relativeSourcePath", JStr EmptyString);
            ("relativeCoverageDir", JStr "coverage")] []).
  - reflexivity.
  - reflexivity.
  - vm_compute. reflexivity.
  - reflexivity.
  - reflexivity.
  - reflexivity.
  - vm_compute. reflexivity.
Defined.

(** [run] with a number as [ignorePatterns]: the globber throws, and
    nothing is armed. *)
Lemma run_glob_throws_witness :
  let w := boot (project "bad-ignore") 1000 in
  run (Ext := Demo2.linux) "/p" 1%nat w
  = (Throw (TypeError "ignore patterns must be strings"), w).
Proof.
  apply (run_glob_throws (Ext := Demo2.linux) "/p" 1%nat
           (boot (project "bad-ignore") 1000)
           [("coverConfig", JStr "cover.json")] "cover.json" "bad-ignore"
           [("enabled", JBool true); ("relativeSourcePath", JStr "src");
            ("relativeCoverageDir", JStr "coverage"); ("ignorePatterns", JNum 42)]
           "src" (TypeError "ignore patterns must be strings")).
  - reflexivity.
  - reflexivity.
  - vm_compute. reflexivity.
  - reflexivity.
  - reflexivity.
  - reflexivity.
  - reflexivity.
Defined.

(** [setupCoverage] on the demo project. *)
Lemma setupCoverage_fileMap_witness :
  let w := boot (project "plain") 1000 in
  let out := setupCoverage (Ext := linux)
               (mkRunner cfg_plain "/p" "$$cov_1000$$" [] None) w in
  fileMap (runnerOf out.2) = ["/p/src/a.js"; "/p/src/b.js"]
  ∧ ∃ rsp srcFiles,
      prop cfg_plain "relativeSourcePath" = JStr rsp
      ∧ globSync (fs w) (prop cfg_plain "ignorePatterns") (join "/p" rsp)
        = Return srcFiles
      ∧ NoDup (fileMap (runnerOf out.2))
      ∧ (∀ k, k ∈ fileMap (runnerOf out.2)
              ↔ ∃ file, file ∈ srcFiles
                        ∧ k = fullPathOf (H := linux) (join "/p" rsp) file)
      ∧ decached (trace out.2)
        = decached (trace w)
          ++ (fullPathOf (H := linux) (join "/p" rsp) <$> srcFiles)
      ∧ fs out.2 = fs w.
Proof.
  split; [vm_compute; reflexivity|].
  eapply (setupCoverage_fileMap (Ext := linux)
            (mkRunner cfg_plain "/p" "$$cov_1000$$" [] None)
            (boot (project "plain") 1000)).
  vm_compute. reflexivity.
Defined.

(** The matcher after [setupCoverage] on the demo project. *)
Lemma setupCoverage_matches_found_witness :
  let w := boot (project "plain") 1000 in
  let out := setupCoverage (Ext := linux)
               (mkRunner cfg_plain "/p" "$$cov_1000$$" [] None) w in
  ∃ rsp srcFiles,
    prop cfg_plain "relativeSourcePath" = JStr rsp
    ∧ globSync (fs w) (prop cfg_plain "ignorePatterns") (join "/p" rsp)
      = Return srcFiles
    ∧ ∀ file,
        file ∈ srcFiles →
        matchFn (Ext := linux) (fileMap (runnerOf out.2)) (join (join "/p" rsp) file)
        = true.
Proof.
  eapply (setupCoverage_matches_found (Ext := linux)
            (mkRunner cfg_plain "/p" "$$cov_1000$$" [] None)
            (boot (project "plain") 1000)).
  vm_compute. reflexivity.
Defined.

(** The report step after tests that loaded [a.js]: its entry stays. *)
Lemma reportCoverage_keeps_live_entries_witness :
  let w := session linux (project "plain") "/p" ["/p/src/a.js"] in
  let w' := (reportCoverage (Ext := linux) (runnerOf w) w).2 in
  ∃ added,
    covOf "$$cov_1000$$" w' = covOf "$$cov_1000$$" w ++ added
    ∧ Forall (λ e, e.1 ∈ fileMap (runnerOf w)
                   ∧ assoc e.1 (covOf "$$cov_1000$$" w) = None
                   ∧ ∀ key n, fc_s e.2 !! key = Some n → n = 0) added.
Proof.
  set (w := session linux (project "plain") "/p" ["/p/src/a.js"]).
  cbv zeta.
  assert (∃ first rest, covOf "$$cov_1000$$" w = first :: rest
                        ∧ globals w !! "$$cov_1000$$" = Some (first :: rest))
    as (first & rest & -> & Hcov) by (eexists _, _; vm_compute; split; reflexivity).
  eapply (reportCoverage_keeps_live_entries (Ext := linux) (runnerOf w) w).
  - exact Hcov.
  - vm_compute. reflexivity.
Defined.

(** The hook of the demo run after its report step. *)
Lemma reportCoverage_disables_hook_witness :
  let w := session linux (project "plain") "/p" ["/p/src/a.js"] in
  let w' := (reportCoverage (Ext := linux) (runnerOf w) w).2 in
  requireHooks w' = alter disable 0%nat (requireHooks w)
  ∧ ∀ h, requireHooks w' !! 0%nat = Some h → hk_enabled h = false.
Proof.
  apply (reportCoverage_disables_hook (Ext := linux)
           (runnerOf (session linux (project "plain") "/p" ["/p/src/a.js"]))
           0%nat).
  vm_compute. reflexivity.
Defined.



(** What the demo report step wrote and rendered. *)
Lemma reportCoverage_snapshot_and_reports_witness :
  let w := session linux (project "pid-two") "/p" ["/p/src/a.js"] in
  let this := runnerOf w in
  let w' := (reportCoverage (Ext := linux) this w).2 in
  writes (trace w')
  = [("/p/coverage/coverage-4242.json", "/p/src/a.js=3;/p/src/b.js=0")]
  ∧ ∃ d coverageMap,
      prop (options this) "relativeCoverageDir" = JStr d
      ∧ let dir := path_join_str (Externals := linux) (testsRoot this) d in
        let cov := covOf (coverageVar this) w' in
        transformCoverage (Externals := linux) cov = Return coverageMap
        ∧ writes (trace w')
          = writes (trace w)
            ++ [(coverageFileOf (H := linux) this dir,
                 JSON_stringify (Externals := linux) cov)]
        ∧ rendered (trace w')
          = rendered (trace w)
            ++ ((λ t, (t, dir, coverageMap))
                  <$> reportTypesOf (prop (options this) "reports")).
Proof.
  set (w := session linux (project "pid-two") "/p" ["/p/src/a.js"]).
  split; [vm_compute; reflexivity|].
  eapply (reportCoverage_snapshot_and_reports (Ext := linux) (runnerOf w) w
            (reportCoverage (Ext := linux) (runnerOf w) w).2).
  - vm_compute. reflexivity.
  - vm_compute. reflexivity.
Defined.

(** [mkDirIfExists] on the reporting directory of the demo project. *)
Lemma mkDirIfExists_idempotent_witness :
  let w := boot (project "plain") 1000 in
  let w' := (mkDirIfExists (Ext := linux) "/p/coverage" w).2 in
  fs w' !! "/p/coverage" = Some Dir
  ∧ is_Some (fs w' !! "/p/coverage")
  ∧ (is_Some (fs w !! "/p/coverage") → w' = w)
  ∧ mkDirIfExists (Ext := linux) "/p/coverage" w' = (Return tt, w').
Proof.
  split; [vm_compute; reflexivity|].
  apply (mkDirIfExists_idempotent (Ext := linux) "/p/coverage"
           (boot (project "plain") 1000)).
  vm_compute. reflexivity.
Defined.

(** [mkDirIfExists] two levels below an existing directory, and below a
    regular file. *)
Lemma mkDirIfExists_no_parent_witness :
  let w := boot (project "plain") 1000 in
  mkDirIfExists (Ext := linux) "/p/out/coverage" w
  = (Throw (ENOENT "/p/out/coverage"), w)
  ∧ mkDirIfExists (Ext := linux) "/p/cover.json/coverage" w
    = (Throw (ENOTDIR "/p/cover.json/coverage"), w).
Proof.
  set (w := boot (project "plain") 1000). cbv zeta. split.
  - destruct (mkDirIfExists_no_parent (Ext := linux) "/p/out/coverage" w)
      as (Hrun & _ & Hmissing); [vm_compute; reflexivity..|].
    rewrite Hrun, Hmissing; [reflexivity | vm_compute; reflexivity..].
  - destruct (mkDirIfExists_no_parent (Ext := linux) "/p/cover.json/coverage" w)
      as (Hrun & Hfile & _); [vm_compute; reflexivity..|].
    rewrite Hrun, (Hfile "plain"); [reflexivity | vm_compute; reflexivity].
Defined.

(** The transformer on a file with a source map next to it. *)
Lemma transformer_with_source_map_witness :
  let w0 := boot (project "plain") 1000 in
  let w := set_fs (<["/p/src/a.js.map" := File "plain"]> (fs w0)) w0 in
  transformer (Ext := linux) "$$cov_1000$$" "a" "/p/src/a.js" w
  = (match instrument "$$cov_1000$$" "a" "/p/src/a.js" cfg_plain with
     | Some out => Return out
     | None => Throw (InstrumentError "/p/src/a.js")
     end, w).
Proof.
  apply (transformer_with_source_map (Ext := linux) "$$cov_1000$$" "a"
           "/p/src/a.js" _ "plain" cfg_plain).
  - vm_compute. reflexivity.
  - reflexivity.
Defined.

(** Setup, a test run that loads [a.js] only, and the report: [b.js]
    ends with zero statement counters. *)
Lemma never_loaded_all_zero_witness :
  let this0 := mkRunner cfg_plain "/p" "$$cov_1000$$" [] None in
  let w1 := (setupCoverage (Ext := linux) this0 (boot (project "plain") 1000)).2 in
  let this := runnerOf w1 in
  let w2 := (forEach ["/p/src/a.js"] (requireFile (Ext := linux)) w1).2 in
  let w3 := (reportCoverage (Ext := linux) this w2).2 in
  ∃ fc, assoc "/p/src/b.js" (covOf (coverageVar this) w3) = Some fc
        ∧ ∀ key n, fc_s fc !! key = Some n → n = 0.
Proof.
  set (this0 := mkRunner cfg_plain "/p" "$$cov_1000$$" [] None).
  set (w0 := boot (project "plain") 1000).
  set (w1 := (setupCoverage (Ext := linux) this0 w0).2).
  set (l := forEach ["/p/src/a.js"] (requireFile (Ext := linux)) w1).
  cbv zeta.
  eapply (never_loaded_all_zero (Ext := linux) this0 w0 (runnerOf w1) w1
            ["/p/src/a.js"] l.1 l.2
            (reportCoverage (Ext := linux) (runnerOf w1) l.2).2).
  - vm_compute. reflexivity.
  - vm_compute. reflexivity.
  - vm_compute. reflexivity.
  - vm_compute. reflexivity.
  - vm_compute. right. left.
  - intros Hin. apply list_elem_of_singleton in Hin. discriminate Hin.
Defined.

(** The same run on a platform that is not win32: the table holds the
    two source files, each once. *)
Lemma coverage_map_exact_witness :
  let this0 := mkRunner cfg_plain "/p" "$$cov_1000$$" [] None in
  let w1 := (setupCoverage (Ext := linux) this0 (boot (project "plain") 1000)).2 in
  let this := runnerOf w1 in
  let w2 := (forEach ["/p/src/a.js"] (requireFile (Ext := linux)) w1).2 in
  let w3 := (reportCoverage (Ext := linux) this w2).2 in
  keys (covOf (coverageVar this) w3) = ["/p/src/a.js"; "/p/src/b.js"]
  ∧ NoDup (keys (covOf (coverageVar this) w3))
  ∧ ∀ k, k ∈ keys (covOf (coverageVar this) w3) ↔ k ∈ fileMap this.
Proof.
  set (this0 := mkRunner cfg_plain "/p" "$$cov_1000$$" [] None).
  set (w0 := boot (project "plain") 1000).
  set (w1 := (setupCoverage (Ext := linux) this0 w0).2).
  set (l := forEach ["/p/src/a.js"] (requireFile (Ext := linux)) w1).
  cbv zeta. split; [vm_compute; reflexivity|].
  eapply (coverage_map_exact (Ext := linux) this0 w0 (runnerOf w1) w1
            ["/p/src/a.js"] l.1 l.2
            (reportCoverage (Ext := linux) (runnerOf w1) l.2).2).
  - discriminate.
  - intros h Hh. vm_compute in Hh. by apply elem_of_nil in Hh.
  - vm_compute. reflexivity.
  - vm_compute. reflexivity.
  - vm_compute. discriminate.
  - vm_compute. reflexivity.
Defined.

(** The report step of the demo run completes and creates the
    directory; on a host whose source-map store throws, it throws and
    writes nothing. *)
Lemma reportCoverage_succeeds_witness :
  let w := session linux (project "plain") "/p" ["/p/src/a.js"] in
  let this := runnerOf w in
  let dir := path_join_str (Externals := linux) (testsRoot this) "coverage" in
  let out := reportCoverage (Ext := linux) this w in
  let cov' := covOf (coverageVar this) out.2 in
  let v := session Demo2.brokenStore (project "plain") "/p" ["/p/src/a.js"] in
  let bad := reportCoverage (Ext := Demo2.brokenStore) (runnerOf v) v in
  (out.1 = Return tt
   ∧ isDir out.2 dir = true
   ∧ fs out.2 !! coverageFileOf (H := linux) this dir
     = Some (File (JSON_stringify (Externals := linux) cov')))
  ∧ (bad.1 = Throw (SyntaxError "Unexpected token in source map")
     ∧ fs bad.2 = fs v
     ∧ trace bad.2 = trace v).
Proof.
  set (w := session linux (project "plain") "/p" ["/p/src/a.js"]).
  set (v := session Demo2.brokenStore (project "plain") "/p" ["/p/src/a.js"]).
  cbv zeta. split.
  - eapply (reportCoverage_succeeds (Ext := linux) (runnerOf w) 0%nat w _ _ "coverage").
    + vm_compute. reflexivity.
    + vm_compute. reflexivity.
    + intros f Hf Hnew. vm_compute in Hf.
      apply elem_of_cons in Hf as [->|Hf]; [vm_compute in Hnew; discriminate|].
      apply elem_of_cons in Hf as [->|Hf]; [|by apply elem_of_nil in Hf].
      eexists _, _. split; vm_compute; reflexivity.
    + vm_compute. reflexivity.
    + right. split; vm_compute; reflexivity.
    + vm_compute. reflexivity.
    + vm_compute. discriminate.
    + vm_compute. reflexivity.
    + vm_compute. reflexivity.
  - eapply (reportCoverage_succeeds (Ext := Demo2.brokenStore) (runnerOf v) 0%nat v
              _ _ "coverage").
    + vm_compute. reflexivity.
    + vm_compute. reflexivity.
    + intros f Hf Hnew. vm_compute in Hf.
      apply elem_of_cons in Hf as [->|Hf]; [vm_compute in Hnew; discriminate|].
      apply elem_of_cons in Hf as [->|Hf]; [|by apply elem_of_nil in Hf].
      eexists _, _. split; vm_compute; reflexivity.
    + vm_compute. reflexivity.
    + right. split; vm_compute; reflexivity.
    + vm_compute. reflexivity.
    + vm_compute. discriminate.
    + vm_compute. reflexivity.
    + vm_compute. reflexivity.
Defined.

(** The report step with the report types lcovonly, nope, html. *)
Lemma reportCoverage_unknown_report_type_witness :
  let w := Demo2.session (project "bad-report") ["/p/src/a.js"] in
  let this := runnerOf w in
  let dir := path_join_str (Externals := Demo2.linux) (testsRoot this) "coverage" in
  let out := reportCoverage (Ext := Demo2.linux) this w in
  let cov' := covOf (coverageVar this) out.2 in
  out.1 = Throw (UnknownReport (JStr "nope"))
  ∧ fs out.2 !! coverageFileOf (H := Demo2.linux) this dir
    = Some (File (JSON_stringify (Externals := Demo2.linux) cov'))
  ∧ renders (trace out.2) = renders (trace w) ++ [JStr "lcovonly"].
Proof.
  set (w := Demo2.session (project "bad-report") ["/p/src/a.js"]).
  cbv zeta.
  eapply (reportCoverage_unknown_report_type (Ext := Demo2.linux) (runnerOf w)
            0%nat w _ _ "coverage").
  - vm_compute. reflexivity.
  - vm_compute. reflexivity.
  - intros f Hf Hnew. vm_compute in Hf.
    apply elem_of_cons in Hf as [->|Hf]; [vm_compute in Hnew; discriminate|].
    apply elem_of_cons in Hf as [->|Hf]; [|by apply elem_of_nil in Hf].
    eexists _, _. split; vm_compute; reflexivity.
  - vm_compute. reflexivity.
  - right. split; vm_compute; reflexivity.
  - vm_compute. reflexivity.
  - vm_compute. discriminate.
  - vm_compute. reflexivity.
  - vm_compute. reflexivity.
  - reflexivity.
  - reflexivity.
Defined.

End MoreRuns.
